(** * Try-On client adapter: a shallow embedding of [src/services/aiService.js]

    The source file holds two variants of the same service.

    - The first one (lines 1-189) keeps a module-level [cachedClient],
      acquires it through [getClient] (direct connection, then
      duplication of the Space) and sends the two images as in-memory
      Blobs, with positional arguments.  It is embedded in [Module Cached].
    - The second one (lines 190-354) connects on every call, writes the
      two images to temporary files that a [finally] block removes, and
      sends named arguments.  It is embedded in [Module TempFile].

    The remote collaborators (the Gradio client, axios, the faults of
    the file system, the wall clock) are not part of the repository:
    they are the fields of a record [Remote], and every theorem
    quantifies over it.  A collaborator answers as a function of its
    arguments and of the history of external calls, so that it may
    answer differently to two successive identical calls.

    What the model fixes:
    - [async] functions run sequentially: a rejected promise is a thrown
      error, an awaited call is a call; two invocations never interleave;
    - a thrown value is [null], [undefined], or an object with a string
      [message], as the [Error] objects of axios, the Gradio client and
      [fs] are;
    - [Date.now()] is a function of the external calls made so far;
    - a deletion that fails leaves the files as they were; a write that
      fails may leave its file empty or cut short;
    - [os.tmpdir()] is a path in normal form, so that [path.join] only
      has to put a separator between it and the file name;
    - [console.*] output is left out; the one logging statement whose
      argument may throw (line 117 / 273) is kept as [describeData]. *)

From Stdlib Require Import ZArith List Lia Init.Byte.
From stdpp Require Import base gmap strings list pretty.

Set Warnings "-register-all".

Open Scope Z_scope.
Open Scope string_scope.
Open Scope list_scope.

(** ** JavaScript values *)

(** [new Blob([data], { type })] *)
Record Blob := mkBlob { blob_data : list Byte.byte; blob_type : string }.

(** The values a remote output can take: what JSON decodes to, plus
    the Blob the Gradio client may hand back. Numbers are integers. *)
Inductive JSValue :=
| VUndefined
| VNull
| VBool (b : bool)
| VNum (n : Z)
| VStr (s : string)
| VBlob (b : Blob)
| VArr (items : list JSValue)
| VObj (fields : list (string * JSValue)).

(** Conversion to boolean, as [if (v)], [v && ...], [!!v] do. *)
Definition truthy (v : JSValue) : bool :=
  match v with
  | VUndefined | VNull => false
  | VBool b => b
  | VNum n => negb (Z.eqb n 0)
  | VStr s => negb (String.eqb s EmptyString)
  | VBlob _ | VArr _ | VObj _ => true
  end.

Fixpoint lookup_field (k : string) (fields : list (string * JSValue)) : JSValue :=
  match fields with
  | [] => VUndefined
  | (k', v) :: rest => if String.eqb k k' then v else lookup_field k rest
  end.

(** [v.k] for [k] one of [url], [path]: only a plain object carries such a
    field; on strings, numbers, booleans, arrays and Blobs the lookup is
    [undefined].  On [null] and [undefined] JavaScript throws, and the
    source never gets there: the access is always the right operand of
    [v && v.k]. *)
Definition get_prop (v : JSValue) (k : string) : JSValue :=
  match v with
  | VObj fields => lookup_field k fields
  | _ => VUndefined
  end.

(** [v && v.k] used as a condition. *)
Definition has_truthy (v : JSValue) (k : string) : bool :=
  truthy v && truthy (get_prop v k).

(** [typeof v === 'string'] *)
Definition typeof_string (v : JSValue) : bool :=
  match v with VStr _ => true | _ => false end.

(** [s.startsWith(p)] *)
Fixpoint startsWith (p s : string) : bool :=
  match p, s with
  | EmptyString, _ => true
  | String a p', String b s' => if Ascii.eqb a b then startsWith p' s' else false
  | String _ _, EmptyString => false
  end.

(** [v instanceof Blob] *)
Definition instanceof_Blob (v : JSValue) : bool :=
  match v with VBlob _ => true | _ => false end.

(** ** Errors and results *)

(** An object that was thrown, as far as the service looks at it: its
    [message].  The message is a string, empty when the object was built
    without one.  A value other than [null] and [undefined] that has no
    [message] at all (a string thrown as it is) is taken as an object whose
    message is empty: [performTryOn] only tests the message and does the
    same on both, while [checkModelStatus] hands on [undefined] where the
    model has the empty string.  The [response] an axios error carries is
    only printed and is left out. *)
Record JSError := mkError { message : string }.

(** What a [throw], or the rejection of a promise, hands to a [catch]:
    any value, [null] and [undefined] included.  The two are kept apart
    from the objects because reading a property of them throws. *)
Inductive Thrown :=
| ThrownNull
| ThrownUndefined
| ThrownError (e : JSError).

Definition Error (msg : string) : Thrown := ThrownError (mkError msg).
Definition TypeError (msg : string) : Thrown := ThrownError (mkError msg).

(** What [performTryOn] resolves to. *)
Inductive TryOnResult :=
| Success (imageBuffer : list Byte.byte) (processingTime : Z)
| Failure (error : string) (processingTime : Z).

(** What [checkModelStatus] resolves to. *)
Inductive ModelStatus :=
| Available (status : string)
| Unavailable (error : string).

Definition is_success (r : TryOnResult) : bool :=
  match r with Success _ _ => true | Failure _ _ => false end.

Definition processingTime_of (r : TryOnResult) : Z :=
  match r with Success _ t => t | Failure _ t => t end.

(** ** The remote call and its arguments *)

(** The session handle [Client.connect] / [Client.duplicate] resolve to. *)
Record Client := mkClient { session : nat }.

(** What [handle_file] wraps: a Blob (first variant) or the path of a
    file on disk (second variant). *)
Inductive FileRef :=
| FromBlob (b : Blob)
| FromPath (p : string).

(** The value given to the [gr.ImageEditor] input. [composite: null] is
    [None]. *)
Record ImageEditorInput := mkEditor {
  background : FileRef;
  layers : list FileRef;
  composite : option FileRef
}.

Inductive Arg :=
| AEditor (e : ImageEditorInput)
| AFile (f : FileRef)
| AString (s : string)
| ABool (b : bool)
| ANumber (n : Z).

(** [client.predict(endpoint, [a, b, ...])] or
    [client.predict(endpoint, { k: a, ... })] *)
Inductive Payload :=
| Positional (args : list Arg)
| Named (args : list (string * Arg)).

(** Options of [Client.duplicate]. *)
Record DuplicateOptions := mkDuplicate {
  dup_hf_token : option string;
  dup_timeout : Z;
  dup_private : bool
}.

(** ** The world outside the module *)

Inductive FsOp :=
| OpRead (path : string)
| OpWrite (path : string)
| OpUnlink (path : string).

(** One external call. *)
Inductive Event :=
| EConnect (space : string) (hf_token : option string)
| EDuplicate (space : string) (opts : DuplicateOptions)
| EGet (url : JSValue)
| EPredict (c : Client) (endpoint : string) (payload : Payload)
| EFs (op : FsOp)
| EReadOther (src : JSValue).

(** The calls that go over the network. *)
Definition is_network (e : Event) : bool :=
  match e with
  | EConnect _ _ | EDuplicate _ _ | EGet _ | EPredict _ _ _ => true
  | EFs _ | EReadOther _ => false
  end.

(** The calls that establish a session. *)
Definition is_session_setup (e : Event) : bool :=
  match e with
  | EConnect _ _ | EDuplicate _ _ => true
  | _ => false
  end.

(** [trace] lists the external calls made so far, the latest first. *)
Record World := mkWorld {
  HUGGINGFACE_API_KEY : option string;   (* process.env.HUGGINGFACE_API_KEY *)
  files : gmap string (list Byte.byte);       (* the file system *)
  trace : list Event
}.

(** The collaborators.  Each one sees the history of calls made before
    the one it answers. *)
Record Remote := mkRemote {
  connect : string -> option string -> list Event -> Thrown + Client;
  duplicate : string -> DuplicateOptions -> list Event -> Thrown + Client;
  http_get : JSValue -> list Event -> Thrown + list Byte.byte;
  predict : Client -> string -> Payload -> list Event -> Thrown + JSValue;
  now : list Event -> Z;                 (* Date.now() *)
  fs_fault : FsOp -> list Event -> option Thrown;
  (* what a failed fs.writeFileSync(path, data) leaves at the path: the
     file is opened with flag 'w' before it is written, so that a write
     that fails may leave it empty or cut short ([Some]); [None] when
     the failure came before the file was created or truncated *)
  partial_write : string -> list Byte.byte -> list Event -> option (list Byte.byte);
  (* fs.readFileSync on something that is not a path string: a file
     descriptor number, or an argument it rejects *)
  read_other : JSValue -> list Event -> Thrown + list Byte.byte;
  (* os.tmpdir(), taken in normal form: no '.', '..' or doubled separator
     and no trailing separator, so that path.join has nothing to rewrite *)
  tmpdir : string
}.

(** ** A state and exception monad *)

Inductive Outcome (A : Type) :=
| Ok (a : A)
| Throw (e : Thrown).
Arguments Ok {A} a.
Arguments Throw {A} e.

(** A computation over the variables [V] of the module (or of the
    function) and the world. *)
Definition M (V A : Type) : Type := V * World -> Outcome A * (V * World).

#[global] Instance M_ret {V} : MRet (M V) := λ A a s, (Ok a, s).

#[global] Instance M_bind {V} : MBind (M V) := λ A B f m s,
  match m s with
  | (Ok a, s') => f a s'
  | (Throw e, s') => (Throw e, s')
  end.

Definition throw {V A} (e : Thrown) : M V A := λ s, (Throw e, s).

(** [try { m } catch (e) { h e }] *)
Definition try_catch {V A} (m : M V A) (h : Thrown -> M V A) : M V A := λ s,
  match m s with
  | (Ok a, s') => (Ok a, s')
  | (Throw e, s') => h e s'
  end.

(** [try { m } finally { f }] where [m] may include a [catch]: the
    completion of [m] stands unless [f] throws. *)
Definition try_finally {V A} (m : M V A) (f : M V unit) : M V A := λ s,
  match m s with
  | (r, s') =>
    match f s' with
    | (Ok _, s'') => (r, s'')
    | (Throw e, s'') => (Throw e, s'')
    end
  end.

Definition get_var {V} : M V V := λ s, (Ok (fst s), s).
Definition set_var {V} (v : V) : M V unit := λ s, (Ok tt, (v, snd s)).
Definition get_world {V} : M V World := λ s, (Ok (snd s), s).

(** An external call: it is appended to the trace, and the collaborator
    decides on its result from the history before it. *)
Definition record_event (ev : Event) (w : World) : World :=
  mkWorld (HUGGINGFACE_API_KEY w) (files w) (ev :: trace w).

Definition call {V A} (ev : Event) (answer : list Event -> Thrown + A) : M V A := λ s,
  match answer (trace (snd s)) with
  | inr a => (Ok a, (fst s, record_event ev (snd s)))
  | inl e => (Throw e, (fst s, record_event ev (snd s)))
  end.

Definition set_files {V} (fs : gmap string (list Byte.byte)) : M V unit := λ s,
  let w := snd s in
  (Ok tt, (fst s, mkWorld (HUGGINGFACE_API_KEY w) fs (trace w))).

(** [x.message] where [x] was caught: a [TypeError] on [null] and
    [undefined], and else the object whose message is read. *)
Definition reading_message {V} (x : Thrown) : M V JSError :=
  match x with
  | ThrownNull => throw (TypeError "Cannot read properties of null (reading 'message')")
  | ThrownUndefined =>
    throw (TypeError "Cannot read properties of undefined (reading 'message')")
  | ThrownError e => mret e
  end.

(** Local variables of a function: [m] runs over them, and they are
    gone when it completes. *)
Definition with_locals {V L A} (init : L) (m : M L A) : M V A := λ s,
  match m (init, snd s) with
  | (r, (_, w)) => (r, (fst s, w))
  end.

(** ** The primitives the service calls *)

Definition SPACE_ID : string := "yisol/IDM-VTON".

(** Declared by both variants and used by neither, like [sleep]. *)
Definition MAX_RETRIES : Z := 3.
Definition RETRY_DELAY : Z := 5000.

Section Primitives.
Context (R : Remote) {V : Type}.

(** [Date.now()] *)
Definition Date_now : M V Z := λ s, (Ok (now R (trace (snd s))), s).

(** [process.env.HUGGINGFACE_API_KEY] *)
Definition getenv_HUGGINGFACE_API_KEY : M V (option string) :=
  w ← get_world; mret (HUGGINGFACE_API_KEY w).

(** [Client.connect(space, { hf_token })] *)
Definition Client_connect (space : string) (hf_token : option string) : M V Client :=
  call (EConnect space hf_token) (connect R space hf_token).

(** [Client.duplicate(space, { hf_token, timeout, private })] *)
Definition Client_duplicate (space : string) (opts : DuplicateOptions) : M V Client :=
  call (EDuplicate space opts) (duplicate R space opts).

(** [axios.get(url, { responseType: 'arraybuffer' })], then [.data] *)
Definition axios_get (url : JSValue) : M V (list Byte.byte) :=
  call (EGet url) (http_get R url).

(** [client.predict(endpoint, payload)], then [.data] *)
Definition client_predict (c : Client) (endpoint : string) (payload : Payload)
  : M V JSValue :=
  call (EPredict c endpoint payload) (predict R c endpoint payload).

Definition fs_call (op : FsOp) : M V unit :=
  call (EFs op) (λ h, match fs_fault R op h with Some e => inl e | None => inr tt end).

(** The call is made and returns nothing. *)
Definition record (ev : Event) : M V unit := call ev (λ _, inr tt).

(** [fs.writeFileSync(path, data)].  When it fails, the file may already
    have been created or truncated, and written in part. *)
Definition fs_writeFileSync (path : string) (data : list Byte.byte) : M V unit :=
  w ← get_world;
  match fs_fault R (OpWrite path) (trace w) with
  | None =>
    record (EFs (OpWrite path));;
    set_files (<[path := data]> (files w))
  | Some e =>
    record (EFs (OpWrite path));;
    match partial_write R path data (trace w) with
    | Some written => set_files (<[path := written]> (files w))
    | None => mret tt
    end;;
    throw e
  end.

(** [fs.existsSync(path)] *)
Definition fs_existsSync (path : string) : M V bool :=
  w ← get_world; mret (bool_decide (is_Some (files w !! path))).

(** [fs.unlinkSync(path)] *)
Definition fs_unlinkSync (path : string) : M V unit :=
  fs_call (OpUnlink path);;
  w ← get_world;
  match files w !! path with
  | Some _ => set_files (delete path (files w))
  | None => throw (Error ("ENOENT: no such file or directory, unlink '" +:+ path +:+ "'"))
  end.

(** [fs.readFileSync(path)] *)
Definition fs_readFileSync (path : JSValue) : M V (list Byte.byte) :=
  match path with
  | VStr p =>
    fs_call (OpRead p);;
    w ← get_world;
    match files w !! p with
    | Some data => mret data
    | None => throw (Error ("ENOENT: no such file or directory, open '" +:+ p +:+ "'"))
    end
  | _ => call (EReadOther path) (read_other R path)
  end.
End Primitives.

(** [handle_file(x)] only wraps its argument. *)
Definition handle_file (f : FileRef) : FileRef := f.

(** [Buffer.from(data)] copies the bytes. *)
Definition Buffer_from (data : list Byte.byte) : list Byte.byte := data.

(** [error.message || 'Try-on processing failed'] *)
Definition message_or_default (e : JSError) : string :=
  if String.eqb (message e) EmptyString then "Try-on processing failed" else message e.

(** [!!process.env.HUGGINGFACE_API_KEY] *)
Definition hasToken (key : option string) : bool :=
  match key with
  | Some k => negb (String.eqb k EmptyString)
  | None => false
  end.

(** ** What both variants do with the remote result *)

Definition is_null (v : JSValue) : bool :=
  match v with VNull => true | _ => false end.

(** Lines 117 and 273, the argument of the logging call:
    [result.data?.map(d => typeof d === 'object' ? Object.keys(d) : typeof d) || 'unknown'].
    [?.] stops on [null] and [undefined]; on an array, [Object.keys(null)]
    throws; anything else has no [map] method. *)
Definition describeData {V} (data : JSValue) : M V unit :=
  match data with
  | VUndefined | VNull => mret tt
  | VArr items =>
    if existsb is_null items
    then throw (TypeError "Cannot convert undefined or null to object")
    else mret tt
  | _ => throw (TypeError "result.data?.map is not a function")
  end.

(** Lines 120 and 276: [result.data[0]]. *)
Definition firstOutput {V} (data : JSValue) : M V JSValue :=
  match data with
  | VUndefined => throw (TypeError "Cannot read properties of undefined (reading '0')")
  | VNull => throw (TypeError "Cannot read properties of null (reading '0')")
  | VArr items => mret (hd VUndefined items)
  | VObj fields => mret (lookup_field "0" fields)
  | VStr (String a _) => mret (VStr (String a EmptyString))
  | _ => mret VUndefined
  end.

Definition unexpected_format : Thrown :=
  Error "Unexpected output format from Gradio client".

(** Lines 123-141 and 278-297: the chain of tests on the first output. *)
Definition normalizeOutput (R : Remote) {V} (outputImage : JSValue) : M V (list Byte.byte) :=
  if has_truthy outputImage "url" then
    response ← axios_get R (get_prop outputImage "url");
    mret (Buffer_from response)
  else if has_truthy outputImage "path" then
    fs_readFileSync R (get_prop outputImage "path")
  else if typeof_string outputImage &&
          match outputImage with VStr s => startsWith "http" s | _ => false end then
    response ← axios_get R outputImage;
    mret (Buffer_from response)
  else if instanceof_Blob outputImage then
    match outputImage with
    | VBlob b => mret (Buffer_from (blob_data b))   (* await outputImage.arrayBuffer() *)
    | _ => throw unexpected_format                  (* not reached: it is a Blob *)
    end
  else
    throw unexpected_format.

(** ** First variant: cached client, Blobs, positional arguments *)

Module Cached.
Section WithRemote.
Context (R : Remote).

(** The module-level [let cachedClient = null] is the variable the
    computations run over. *)
Abbreviation Prog := (M (option Client)).

(** Lines 23-26 *)
Definition fetchImageBlob (url : string) : Prog Blob :=
  response ← axios_get R (VStr url);
  mret (mkBlob response "image/jpeg").

(** Lines 32-66.  The [try] block either returns the client ([Some])
    or falls through its [catch] ([None]); the [catch] prints
    [connectError.message] (line 54). *)
Definition getClient : Prog Client :=
  cachedClient ← get_var;
  match cachedClient with
  | Some c => mret c
  | None =>
    key ← getenv_HUGGINGFACE_API_KEY;
    if negb (hasToken key) then
      throw (Error "HUGGINGFACE_API_KEY is required for IDM-VTON")
    else
      direct ← try_catch
                 (c ← Client_connect R SPACE_ID key;
                  set_var (Some c);;
                  mret (Some c))
                 (λ connectError, reading_message connectError;; mret None);
      match direct with
      | Some c => mret c
      | None =>
        c ← Client_duplicate R SPACE_ID (mkDuplicate key 300 true);
        set_var (Some c);;
        mret c
      end
  end.

(** Lines 105-113: the arguments of the remote call. *)
Definition tryon_arguments (personFile garmentFile : FileRef) : Payload :=
  let imageEditorInput := mkEditor personFile [] None in
  Positional [ AEditor imageEditorInput;
               AFile garmentFile;
               AString "A stylish garment";
               ABool true;
               ABool false;
               ANumber 30;
               ANumber 42 ].

(** Lines 78-147: the body of the [try]. *)
Definition tryOn (personImageUrl garmentImageUrl : string) (startTime : Z)
  : Prog TryOnResult :=
  client ← getClient;
  personBlob ← fetchImageBlob personImageUrl;
  garmentBlob ← fetchImageBlob garmentImageUrl;
  let personFile := handle_file (FromBlob personBlob) in
  let garmentFile := handle_file (FromBlob garmentBlob) in
  data ← client_predict R client "/tryon" (tryon_arguments personFile garmentFile);
  t ← Date_now R;
  let processingTime := t - startTime in
  describeData data;;
  outputImage ← firstOutput data;
  outputBuffer ← normalizeOutput R outputImage;
  mret (Success outputBuffer processingTime).

(** Lines 149-170: the [catch].  It reads [error.message] first, to
    print it (line 153). *)
Definition onError (startTime : Z) (error : Thrown) : Prog TryOnResult :=
  e ← reading_message error;
  set_var None;;
  t ← Date_now R;
  let processingTime := t - startTime in
  mret (Failure (message_or_default e) processingTime).

(** Lines 73-171 *)
Definition performTryOn (personImageUrl garmentImageUrl : string) : Prog TryOnResult :=
  startTime ← Date_now R;
  try_catch (tryOn personImageUrl garmentImageUrl startTime) (onError startTime).

(** Lines 176-184 *)
Definition checkModelStatus : Prog ModelStatus :=
  try_catch
    (key ← getenv_HUGGINGFACE_API_KEY;
     Client_connect R SPACE_ID key;;
     mret (Available "Connected"))
    (λ error, e ← reading_message error; mret (Unavailable (message e))).
End WithRemote.
End Cached.

(** ** Second variant: a connection per call, temporary files, named arguments *)

(** [path.join(dir, name)] where [dir] is in normal form and does not
    end with a separator, as [os.tmpdir()] gives it, and [name] is a plain
    file name: the normalization [path.join] applies to its result then
    changes nothing, and the result is the two joined by a separator. *)
Definition path_join (dir name : string) : string := dir +:+ "/" +:+ name.

Module TempFile.
(** [let personTempPath = null; let garmentTempPath = null;] *)
Record Locals := mkLocals {
  personTempPath : option string;
  garmentTempPath : option string
}.

Section WithRemote.
Context (R : Remote).

(** Lines 209-215 *)
Definition downloadToTempFile {V} (url prefix : string) : M V string :=
  response ← axios_get R (VStr url);
  let tempDir := tmpdir R in
  t ← Date_now R;
  let tempPath := path_join tempDir (prefix +:+ "_" +:+ pretty t +:+ ".jpg") in
  fs_writeFileSync R tempPath response;;
  mret tempPath.

(** Lines 261-269: the arguments of the remote call. *)
Definition tryon_arguments (personFile garmentFile : FileRef) : Payload :=
  let imageEditorInput := mkEditor personFile [] None in
  Named [ ("dict", AEditor imageEditorInput);
          ("garm_img", AFile garmentFile);
          ("garment_des", AString "A stylish garment");
          ("is_checked", ABool true);
          ("is_checked_crop", ABool false);
          ("denoise_steps", ANumber 30);
          ("seed", ANumber 42) ].

(** Lines 230-303: the body of the [try]. *)
Definition tryOn (personImageUrl garmentImageUrl : string) (startTime : Z)
  : M Locals TryOnResult :=
  key ← getenv_HUGGINGFACE_API_KEY;
  client ← Client_connect R SPACE_ID key;
  p ← downloadToTempFile personImageUrl "person";
  l ← get_var; set_var (mkLocals (Some p) (garmentTempPath l));;
  g ← downloadToTempFile garmentImageUrl "garment";
  l ← get_var; set_var (mkLocals (personTempPath l) (Some g));;
  let personFile := handle_file (FromPath p) in
  let garmentFile := handle_file (FromPath g) in
  data ← client_predict R client "/tryon" (tryon_arguments personFile garmentFile);
  t ← Date_now R;
  let processingTime := t - startTime in
  describeData data;;
  outputImage ← firstOutput data;
  outputBuffer ← normalizeOutput R outputImage;
  mret (Success outputBuffer processingTime).

(** Lines 305-322: the [catch].  It reads [error.message] first, to
    print it (line 309). *)
Definition onError {V} (startTime : Z) (error : Thrown) : M V TryOnResult :=
  e ← reading_message error;
  t ← Date_now R;
  let processingTime := t - startTime in
  mret (Failure (message_or_default e) processingTime).

(** [if (tempPath && fs.existsSync(tempPath)) fs.unlinkSync(tempPath);] *)
Definition removeIfPresent {V} (tempPath : option string) : M V unit :=
  match tempPath with
  | Some p =>
    present ← fs_existsSync p;
    if negb (String.eqb p EmptyString) && present then fs_unlinkSync R p else mret tt
  | None => mret tt
  end.

(** Lines 323-335: the [finally].  Its [catch] prints
    [cleanupError.message] (line 333). *)
Definition cleanup : M Locals unit :=
  try_catch
    (l ← get_var;
     removeIfPresent (personTempPath l);;
     removeIfPresent (garmentTempPath l))
    (λ cleanupError, reading_message cleanupError;; mret tt).

(** Lines 222-336 *)
Definition performTryOn {V} (personImageUrl garmentImageUrl : string) : M V TryOnResult :=
  startTime ← Date_now R;
  with_locals (mkLocals None None)
    (try_finally
       (try_catch (tryOn personImageUrl garmentImageUrl startTime) (onError startTime))
       cleanup).

(** Lines 341-349 *)
Definition checkModelStatus {V} : M V ModelStatus :=
  try_catch
    (key ← getenv_HUGGINGFACE_API_KEY;
     Client_connect R SPACE_ID key;;
     mret (Available "Connected"))
    (λ error, e ← reading_message error; mret (Unavailable (message e))).
End WithRemote.
End TempFile.

(** ** Sample collaborators, for running the service *)

Module Sample.
Definition jpeg_p : list Byte.byte := [x01; x02].
Definition jpeg_g : list Byte.byte := [x03].
Definition jpeg_out : list Byte.byte := [xff; xd8; xff].

(** A remote side where everything works: the result comes back as
    [{ url, path }] with a mask preview, and the clock advances by a
    second per external call. *)
Definition healthy : Remote := {|
  connect := λ _ _ _, inr (mkClient 1);
  duplicate := λ _ _ _, inr (mkClient 2);
  http_get := λ url _,
    match url with
    | VStr "https://x/p.jpg" => inr jpeg_p
    | VStr "https://x/g.jpg" => inr jpeg_g
    | VStr "https://x/out.jpg" => inr jpeg_out
    | _ => inl (Error "Request failed with status code 404")
    end;
  predict := λ _ _ _ _,
    inr (VArr [ VObj [("path", VStr "/tmp/gradio/out.jpg"); ("url", VStr "https://x/out.jpg")];
                VObj [("url", VStr "https://x/mask.jpg")] ]);
  now := λ h, 1000 * Z.of_nat (length h);
  fs_fault := λ _ _, None;
  partial_write := λ _ _ _, None;
  read_other := λ _ _, inl (TypeError "The path argument must be of type string");
  tmpdir := "/tmp"
|}.

(** The shared Space refuses the direct connection; duplicating it works. *)
Definition busy : Remote := {|
  connect := λ _ _ _, inl (Error "Space is busy");
  duplicate := duplicate healthy;
  http_get := http_get healthy;
  predict := predict healthy;
  now := now healthy;
  fs_fault := fs_fault healthy;
  partial_write := partial_write healthy;
  read_other := read_other healthy;
  tmpdir := tmpdir healthy
|}.

(** Deleting a file fails. *)
Definition locked : Remote := {|
  connect := connect healthy;
  duplicate := duplicate healthy;
  http_get := http_get healthy;
  predict := predict healthy;
  now := now healthy;
  fs_fault := λ op _,
    match op with
    | OpUnlink _ => Some (Error "EPERM: operation not permitted, unlink")
    | _ => None
    end;
  partial_write := partial_write healthy;
  read_other := read_other healthy;
  tmpdir := tmpdir healthy
|}.

(** The disk is full: a file can be created, and nothing written to it. *)
Definition disk_full : Remote := {|
  connect := connect healthy;
  duplicate := duplicate healthy;
  http_get := http_get healthy;
  predict := predict healthy;
  now := now healthy;
  fs_fault := λ op _,
    match op with
    | OpWrite _ => Some (Error "ENOSPC: no space left on device, write")
    | _ => None
    end;
  partial_write := λ _ _ _, Some [];
  read_other := read_other healthy;
  tmpdir := tmpdir healthy
|}.

(** The clock is set back while the service runs. *)
Definition clock_set_back : Remote := {|
  connect := connect healthy;
  duplicate := duplicate healthy;
  http_get := http_get healthy;
  predict := predict healthy;
  now := λ h, 5000 - 1000 * Z.of_nat (length h);
  fs_fault := fs_fault healthy;
  partial_write := partial_write healthy;
  read_other := read_other healthy;
  tmpdir := tmpdir healthy
|}.

(** The remote call answers with the given outputs. *)
Definition answering (outputs : JSValue) : Remote := {|
  connect := connect healthy;
  duplicate := duplicate healthy;
  http_get := http_get healthy;
  predict := λ _ _ _ _, inr outputs;
  now := now healthy;
  fs_fault := fs_fault healthy;
  partial_write := partial_write healthy;
  read_other := read_other healthy;
  tmpdir := tmpdir healthy
|}.

(** Every request is rejected with the given value; the file system
    and the clock are those of [healthy]. *)
Definition rejecting (x : Thrown) : Remote := {|
  connect := λ _ _ _, inl x;
  duplicate := λ _ _ _, inl x;
  http_get := λ _ _, inl x;
  predict := λ _ _ _ _, inl x;
  now := now healthy;
  fs_fault := fs_fault healthy;
  partial_write := partial_write healthy;
  read_other := read_other healthy;
  tmpdir := tmpdir healthy
|}.

Definition world (key : option string) : World := mkWorld key ∅ [].
Definition person : string := "https://x/p.jpg".
Definition garment : string := "https://x/g.jpg".
End Sample.

(** ** Running a computation: equations of the monad *)

Section MonadEquations.
Context {V A B : Type}.

Lemma run_bind (m : M V A) (f : A -> M V B) s :
  (m ≫= f) s =
    match m s with
    | (Ok a, s') => f a s'
    | (Throw e, s') => (Throw e, s')
    end.
Proof. reflexivity. Qed.

Lemma getenv_run (s : V * World) :
  getenv_HUGGINGFACE_API_KEY s = (Ok (HUGGINGFACE_API_KEY (snd s)), s).
Proof. reflexivity. Qed.

Lemma bind_Ok_inv (m : M V A) (f : A -> M V B) s b s2 :
  (m ≫= f) s = (Ok b, s2) ->
  exists a s1, m s = (Ok a, s1) /\ f a s1 = (Ok b, s2).
Proof.
  rewrite run_bind. destruct (m s) as [[a|e] s1]; intros H.
  - exists a, s1. split; [reflexivity | exact H].
  - discriminate H.
Qed.

Lemma bind_Throw_inv (m : M V A) (f : A -> M V B) s e s2 :
  (m ≫= f) s = (Throw e, s2) ->
  m s = (Throw e, s2) \/ exists a s1, m s = (Ok a, s1) /\ f a s1 = (Throw e, s2).
Proof.
  rewrite run_bind. destruct (m s) as [[a|e'] s1]; intros H.
  - right. exists a, s1. split; [reflexivity | exact H].
  - left. inversion H. reflexivity.
Qed.

Lemma call_Ok_inv (ev : Event) (answer : list Event -> Thrown + A) (s : V * World) a s' :
  call ev answer s = (Ok a, s') ->
  answer (trace (snd s)) = inr a /\
  s' = (fst s, record_event ev (snd s)).
Proof.
  unfold call. destruct (answer (trace (snd s))); intros H; inversion H; auto.
Qed.
End MonadEquations.

(** Unfolds the plumbing of the monad, leaving the calls to the
    collaborators in place. *)
Ltac run_monad :=
  cbv [mbind M_bind mret M_ret throw get_var set_var get_world set_files Date_now
       getenv_HUGGINGFACE_API_KEY] in *;
  cbn [fst snd] in *.

(** ** What the handlers do with what was thrown *)

Definition cannot_read_message (x : Thrown) : Thrown :=
  match x with
  | ThrownUndefined => TypeError "Cannot read properties of undefined (reading 'message')"
  | _ => TypeError "Cannot read properties of null (reading 'message')"
  end.

Lemma Cached_onError_run (R : Remote) (t0 : Z) (x : Thrown) (s : option Client * World) :
  Cached.onError R t0 x s =
    match x with
    | ThrownError e =>
      (Ok (Failure (message_or_default e) (now R (trace (snd s)) - t0)), (None, snd s))
    | _ => (Throw (cannot_read_message x), s)
    end.
Proof. destruct x; reflexivity. Qed.

Lemma TempFile_onError_run (R : Remote) {V} (t0 : Z) (x : Thrown) (s : V * World) :
  TempFile.onError R t0 x s =
    match x with
    | ThrownError e => (Ok (Failure (message_or_default e) (now R (trace (snd s)) - t0)), s)
    | _ => (Throw (cannot_read_message x), s)
    end.
Proof. destruct x; reflexivity. Qed.

(** A handler returns a failure or throws: it never returns a success. *)
Lemma Cached_onError_Ok_inv (R : Remote) t0 x (s s' : option Client * World) r :
  Cached.onError R t0 x s = (Ok r, s') ->
  exists e, x = ThrownError e /\
            r = Failure (message_or_default e) (now R (trace (snd s)) - t0) /\
            s' = (None, snd s).
Proof.
  rewrite Cached_onError_run. destruct x as [ | | e]; try discriminate.
  intros H. inversion H. eauto.
Qed.

Lemma TempFile_onError_Ok_inv (R : Remote) {V} t0 x (s s' : V * World) r :
  TempFile.onError R t0 x s = (Ok r, s') ->
  exists e, x = ThrownError e /\
            r = Failure (message_or_default e) (now R (trace (snd s)) - t0) /\
            s' = s.
Proof.
  rewrite TempFile_onError_run. destruct x as [ | | e]; try discriminate.
  intros H. inversion H. eauto.
Qed.

(** With an object thrown by the [try] body, the first variant returns
    the failure that carries its message. *)
Lemma performTryOn_catches_objects (R : Remote) p g (s s1 : option Client * World) e :
  Cached.tryOn R p g (now R (trace (snd s))) s = (Throw (ThrownError e), s1) ->
  Cached.performTryOn R p g s =
    (Ok (Failure (message_or_default e) (now R (trace (snd s1)) - now R (trace (snd s)))),
     (None, snd s1)).
Proof.
  intros H. unfold Cached.performTryOn. rewrite run_bind. unfold Date_now at 1.
  unfold try_catch. rewrite H. apply Cached_onError_run.
Qed.

(** With [null] or [undefined] thrown by the [try] body, the handler
    itself throws, before it has cleared the cache. *)
Lemma performTryOn_lets_nullish_escape (R : Remote) p g (s s1 : option Client * World) x :
  Cached.tryOn R p g (now R (trace (snd s))) s = (Throw x, s1) ->
  x = ThrownNull \/ x = ThrownUndefined ->
  Cached.performTryOn R p g s = (Throw (cannot_read_message x), s1).
Proof.
  intros H N. unfold Cached.performTryOn. rewrite run_bind. unfold Date_now at 1.
  unfold try_catch. rewrite H, Cached_onError_run. destruct N; subst x; reflexivity.
Qed.

(** ** The result normalizer *)

(** The shapes of section 4.4 of the specification, as a tagged value. *)
Inductive Shape :=
| RemoteUrl (url : JSValue)
| LocalPath (path : JSValue)
| UrlString (url : string)
| InlineBlob (b : Blob)
| Unrecognized.

(** The precedence of section 4.4, in its words: (1) an object exposing
    a url field, (2) an object exposing a path field, (3) a bare string
    that starts with http, (4) a Blob, (5) anything else.  A field counts
    when its value is truthy. *)
Definition shape_of (v : JSValue) : Shape :=
  match v with
  | VObj fields =>
    if truthy (lookup_field "url" fields) then RemoteUrl (lookup_field "url" fields)
    else if truthy (lookup_field "path" fields) then LocalPath (lookup_field "path" fields)
    else Unrecognized
  | VStr s => if startsWith "http" s then UrlString s else Unrecognized
  | VBlob b => InlineBlob b
  | _ => Unrecognized
  end.

Lemma axios_get_run (R : Remote) {V} (url : JSValue) (s : V * World) :
  fst (axios_get R url s) =
    match http_get R url (trace (snd s)) with
    | inr data => Ok data
    | inl e => Throw e
    end.
Proof. unfold axios_get, call. destruct (http_get R url (trace (snd s))); reflexivity. Qed.

Lemma fs_readFileSync_run (R : Remote) {V} (p : string) (s : V * World) :
  fst (fs_readFileSync R (VStr p) s) =
    match fs_fault R (OpRead p) (trace (snd s)) with
    | Some e => Throw e
    | None =>
      match files (snd s) !! p with
      | Some data => Ok data
      | None => Throw (Error ("ENOENT: no such file or directory, open '" +:+ p +:+ "'"))
      end
    end.
Proof.
  unfold fs_readFileSync, fs_call, call. run_monad.
  destruct (fs_fault R (OpRead p) (trace (snd s))); [reflexivity|].
  cbn. destruct (files (snd s) !! p); reflexivity.
Qed.

Lemma bind_ret_same {V A} (m : M V A) (s : V * World) :
  (m ≫= λ a, mret a) s = m s.
Proof. rewrite run_bind. destruct (m s) as [[a|e] s']; reflexivity. Qed.

(** C2. The normalizer tests the first output against the four shapes in
    the order url field, path field, string starting with http, Blob,
    and the first that matches decides: it then does exactly what a
    direct fetch or read of that source does (same bytes, same error,
    same calls), or hands back the bytes of the Blob; every other value
    throws the error whose message is
    'Unexpected output format from Gradio client'. *)
Theorem normalizeOutput_by_shape (R : Remote) (V : Type) (v : JSValue) (s : V * World) :
  normalizeOutput R v s =
    match shape_of v with
    | RemoteUrl url => axios_get R url s
    | LocalPath path => fs_readFileSync R path s
    | UrlString url => axios_get R (VStr url) s
    | InlineBlob b => (Ok (blob_data b), s)
    | Unrecognized => (Throw (Error "Unexpected output format from Gradio client"), s)
    end.
Proof.
  unfold normalizeOutput, shape_of, has_truthy, unexpected_format, Buffer_from.
  destruct v as [ | | b | n | str | b | items | fields ];
    cbn [truthy get_prop andb typeof_string instanceof_Blob];
    rewrite ?andb_false_r; try reflexivity.
  - destruct (startsWith "http" str); [apply bind_ret_same | reflexivity].
  - destruct (truthy (lookup_field "url" fields)).
    + apply bind_ret_same.
    + destruct (truthy (lookup_field "path" fields)); reflexivity.
Qed.

(** A Gradio file record carries both fields: the url decides. *)
Example shape_url_before_path :
  shape_of (VObj [("path", VStr "/tmp/gradio/out.jpg"); ("url", VStr "https://x/out.jpg")])
  = RemoteUrl (VStr "https://x/out.jpg").
Proof. reflexivity. Qed.

Example shape_empty_url_then_path :
  shape_of (VObj [("url", VStr EmptyString); ("path", VStr "/tmp/out.jpg")])
  = LocalPath (VStr "/tmp/out.jpg").
Proof. reflexivity. Qed.

Example shape_number : shape_of (VNum 42) = Unrecognized.
Proof. reflexivity. Qed.

Example shape_plain_string : shape_of (VStr "data:image/png;base64,AAAA") = Unrecognized.
Proof. reflexivity. Qed.

(** ** What a computation may change *)

(** [steps Rel m]: the state [m] ends in, whether it returns or throws,
    is related by [Rel] to the state it started from. *)
Definition steps {V A} (Rel : relation (V * World)) (m : M V A) : Prop :=
  forall s, Rel s (snd (m s)).

Section Steps.
Context {V : Type} (Rel : relation (V * World)) `{!PreOrder Rel}.

Lemma steps_ret {A} (a : A) : steps Rel (mret a : M V A).
Proof. intros s. reflexivity. Qed.

Lemma steps_throw {A} (e : Thrown) : steps Rel (throw e : M V A).
Proof. intros s. reflexivity. Qed.

Lemma steps_reading_message (x : Thrown) : steps Rel (reading_message x : M V JSError).
Proof. intros s. destruct x; reflexivity. Qed.

Lemma steps_get_var : steps Rel (get_var : M V V).
Proof. intros s. reflexivity. Qed.

Lemma steps_get_world : steps Rel (get_world : M V World).
Proof. intros s. reflexivity. Qed.

Lemma steps_Date_now R : steps Rel (Date_now R : M V Z).
Proof. intros s. reflexivity. Qed.

Lemma steps_getenv : steps Rel (getenv_HUGGINGFACE_API_KEY : M V (option string)).
Proof. intros s. reflexivity. Qed.

Lemma steps_bind {A B} (m : M V A) (f : A -> M V B) :
  steps Rel m -> (forall a, steps Rel (f a)) -> steps Rel (m ≫= f).
Proof.
  intros Hm Hf s. rewrite run_bind.
  specialize (Hm s). destruct (m s) as [[a|e] s1]; cbn [snd] in *.
  - transitivity s1; [exact Hm | apply Hf].
  - exact Hm.
Qed.

Lemma steps_try_catch {A} (m : M V A) (h : Thrown -> M V A) :
  steps Rel m -> (forall e, steps Rel (h e)) -> steps Rel (try_catch m h).
Proof.
  intros Hm Hh s. unfold try_catch.
  specialize (Hm s). destruct (m s) as [[a|e] s1]; cbn [snd] in *.
  - exact Hm.
  - transitivity s1; [exact Hm | apply Hh].
Qed.

Lemma steps_try_finally {A} (m : M V A) (f : M V unit) :
  steps Rel m -> steps Rel f -> steps Rel (try_finally m f).
Proof.
  intros Hm Hf s. unfold try_finally.
  specialize (Hm s). destruct (m s) as [r s1]. specialize (Hf s1).
  cbn [snd] in *.
  destruct (f s1) as [[[]|e] s2]; cbn [snd] in *; transitivity s1; assumption.
Qed.

(** The same three rules, from the state the first part ends in. *)
Lemma steps_from_bind {A B} (m : M V A) (f : A -> M V B) s :
  (forall a, steps Rel (f a)) -> Rel (snd (m s)) (snd ((m ≫= f) s)).
Proof.
  intros Hf. rewrite run_bind. destruct (m s) as [[a|e] s1]; cbn [snd].
  - apply Hf.
  - reflexivity.
Qed.

Lemma steps_from_try_catch {A} (m : M V A) (h : Thrown -> M V A) s :
  (forall e, steps Rel (h e)) -> Rel (snd (m s)) (snd (try_catch m h s)).
Proof.
  intros Hh. unfold try_catch. destruct (m s) as [[a|e] s1]; cbn [snd].
  - reflexivity.
  - apply Hh.
Qed.

Lemma steps_from_try_finally {A} (m : M V A) (f : M V unit) s :
  steps Rel f -> Rel (snd (m s)) (snd (try_finally m f s)).
Proof.
  intros Hf. unfold try_finally. destruct (m s) as [r s1]. specialize (Hf s1).
  cbn [snd] in *. destruct (f s1) as [[[]|e] s2]; exact Hf.
Qed.
End Steps.

(** The calls added between two states all satisfy [P]. *)
Definition adds {V} (P : Event -> bool) : relation (V * World) :=
  λ s s', exists evs, trace (snd s') = evs ++ trace (snd s) /\ forallb P evs = true.

#[global] Instance adds_preorder {V} (P : Event -> bool) : PreOrder (@adds V P).
Proof.
  split.
  - intros s. exists []. auto.
  - intros s1 s2 s3 (e1 & E1 & F1) (e2 & E2 & F2). exists (e2 ++ e1).
    rewrite E2, E1, app_assoc, forallb_app, F1, F2. auto.
Qed.

Lemma adds_trans {V} (P : Event -> bool) (s1 s2 s3 : V * World) :
  adds P s1 s2 -> adds P s2 s3 -> adds P s1 s3.
Proof. intros H1 H2. transitivity s2; assumption. Qed.

(** The variables of the module are left as they were. *)
Definition same_vars {V} : relation (V * World) := λ s s', fst s' = fst s.

#[global] Instance same_vars_preorder {V} : PreOrder (@same_vars V).
Proof. split; [intros s; reflexivity | intros s1 s2 s3 E1 E2; unfold same_vars in *; congruence]. Qed.

(** The files are left as they were. *)
Definition same_files {V} : relation (V * World) := λ s s', files (snd s') = files (snd s).

#[global] Instance same_files_preorder {V} : PreOrder (@same_files V).
Proof. split; [intros s; reflexivity | intros s1 s2 s3 E1 E2; unfold same_files in *; congruence]. Qed.

(** [emits P m]: running [m] only adds calls to the trace, and every
    call it adds satisfies [P]. *)
Abbreviation emits P m := (steps (adds P) m).

Section Primitive_steps.
Context {V : Type}.

Lemma emits_set_var P (v : V) : emits P (set_var v).
Proof. intros s. exists []. auto. Qed.

Lemma emits_set_files P fs : emits P (set_files fs : M V unit).
Proof. intros s. exists []. auto. Qed.

Lemma emits_call {A} P (ev : Event) (answer : list Event -> Thrown + A) :
  P ev = true -> emits P (call ev answer : M V A).
Proof.
  intros Hev s. exists [ev]. unfold call.
  destruct (answer (trace (snd s))); cbn; rewrite Hev; auto.
Qed.

Lemma same_vars_call {A} (ev : Event) (answer : list Event -> Thrown + A) :
  steps same_vars (call ev answer : M V A).
Proof. intros s. unfold call, same_vars. destruct (answer (trace (snd s))); reflexivity. Qed.

Lemma same_vars_set_files fs : steps same_vars (set_files fs : M V unit).
Proof. intros s. reflexivity. Qed.

Lemma same_files_call {A} (ev : Event) (answer : list Event -> Thrown + A) :
  steps same_files (call ev answer : M V A).
Proof. intros s. unfold call, same_files. destruct (answer (trace (snd s))); reflexivity. Qed.

Lemma same_files_set_var (v : V) : steps same_files (set_var v).
Proof. intros s. reflexivity. Qed.
End Primitive_steps.

Lemma emits_with_locals {V L A} (P : Event -> bool) (init : L) (m : M L A) :
  emits P m -> emits P (with_locals init m : M V A).
Proof.
  intros Hm s. unfold with_locals.
  destruct (Hm (init, snd s)) as (evs & E & F).
  destruct (m (init, snd s)) as [r [l w]]. exists evs. auto.
Qed.

(** Applies the rules above through a sequence of binds. *)
Ltac steps_tac :=
  repeat first
    [ apply steps_ret; tc_solve | apply steps_throw; tc_solve
    | apply steps_reading_message; tc_solve
    | apply steps_get_var; tc_solve | apply steps_get_world; tc_solve
    | apply steps_Date_now; tc_solve | apply steps_getenv; tc_solve
    | apply emits_set_var | apply emits_set_files
    | apply emits_call; reflexivity
    | apply same_vars_call | apply same_vars_set_files
    | apply same_files_call | apply same_files_set_var
    | apply emits_with_locals
    | lazymatch goal with
      | |- steps _ (_ ≫= _) => apply steps_bind; [tc_solve | | intros ?]
      | |- steps _ (try_catch _ _) => apply steps_try_catch; [tc_solve | | intros ?]
      | |- steps _ (try_finally _ _) => apply steps_try_finally; [tc_solve | |]
      end ].

(** The calls the normalizer and the file system primitives make. *)
Definition is_io (e : Event) : bool :=
  match e with
  | EGet _ | EFs _ | EReadOther _ => true
  | _ => false
  end.

Section Program_steps.
Context (R : Remote) {V : Type} (Rel : relation (V * World)) `{!PreOrder Rel}.
Hypothesis Rel_io : forall A ev (answer : list Event -> Thrown + A),
  is_io ev = true -> steps Rel (call ev answer).

Lemma steps_axios_get url : steps Rel (axios_get R url).
Proof. apply Rel_io. reflexivity. Qed.

Lemma steps_fs_call op : steps Rel (fs_call R op).
Proof. apply Rel_io. reflexivity. Qed.

Lemma steps_fs_existsSync path : steps Rel (fs_existsSync path).
Proof. unfold fs_existsSync. steps_tac. Qed.

Lemma steps_fs_readFileSync path : steps Rel (fs_readFileSync R path).
Proof.
  unfold fs_readFileSync. destruct path; try (apply Rel_io; reflexivity).
  apply steps_bind; [tc_solve | apply steps_fs_call | intros ?].
  apply steps_bind; [tc_solve | steps_tac | intros w]. destruct (files w !! s); steps_tac.
Qed.

Lemma steps_describeData data : steps Rel (describeData data).
Proof.
  unfold describeData. destruct data; steps_tac.
  destruct (existsb is_null items); steps_tac.
Qed.

Lemma steps_firstOutput data : steps Rel (firstOutput data).
Proof. unfold firstOutput. destruct data as [ | | | | [|] | | | ]; steps_tac. Qed.

Lemma steps_normalizeOutput v : steps Rel (normalizeOutput R v).
Proof.
  unfold normalizeOutput.
  repeat match goal with |- context [if ?c then _ else _] => destruct c end;
    try (apply steps_bind; [tc_solve | apply steps_axios_get | intros ?]);
    try apply steps_fs_readFileSync; steps_tac.
  destruct v; steps_tac.
Qed.

Hypothesis Rel_files : forall fs, steps Rel (set_files fs).

Lemma steps_record ev : is_io ev = true -> steps Rel (record ev).
Proof. apply Rel_io. Qed.

Lemma steps_fs_writeFileSync path data : steps Rel (fs_writeFileSync R path data).
Proof.
  unfold fs_writeFileSync. apply steps_bind; [tc_solve | steps_tac | intros w].
  destruct (fs_fault R (OpWrite path) (trace w)).
  - apply steps_bind; [tc_solve | apply steps_record; reflexivity | intros ?].
    apply steps_bind; [tc_solve | | intros ?; steps_tac].
    destruct (partial_write R path data (trace w)); [apply Rel_files | steps_tac].
  - apply steps_bind; [tc_solve | apply steps_record; reflexivity | intros ?].
    apply Rel_files.
Qed.

Lemma steps_fs_unlinkSync path : steps Rel (fs_unlinkSync R path).
Proof.
  unfold fs_unlinkSync. apply steps_bind; [tc_solve | apply steps_fs_call | intros ?].
  apply steps_bind; [tc_solve | steps_tac | intros w].
  destruct (files w !! path); [apply Rel_files | steps_tac].
Qed.
End Program_steps.

Lemma adds_io {V} (P : Event -> bool) :
  (forall e, is_io e = true -> P e = true) ->
  forall A ev (answer : list Event -> Thrown + A),
    is_io ev = true -> steps (@adds V P) (call ev answer).
Proof. intros HP A ev answer Hev. apply emits_call, HP, Hev. Qed.

Lemma same_vars_io {V} A ev (answer : list Event -> Thrown + A) :
  is_io ev = true -> steps (@same_vars V) (call ev answer).
Proof. intros _. apply same_vars_call. Qed.

Lemma same_files_io {V} A ev (answer : list Event -> Thrown + A) :
  is_io ev = true -> steps (@same_files V) (call ev answer).
Proof. intros _. apply same_files_call. Qed.

Lemma steps_apply {V A} (Rel : relation (V * World)) (m : M V A) s :
  steps Rel m -> Rel s (snd (m s)).
Proof. intros H. apply H. Qed.

(** [returns_only Q m]: when [m] returns, what it returns satisfies [Q]. *)
Definition returns_only {V A} (Q : A -> Prop) (m : M V A) : Prop :=
  forall s a s', m s = (Ok a, s') -> Q a.

Lemma returns_only_bind {V A B} (Q : B -> Prop) (m : M V A) (f : A -> M V B) :
  (forall a, returns_only Q (f a)) -> returns_only Q (m ≫= f).
Proof.
  intros Hf s b s' H. apply bind_Ok_inv in H as (a & s1 & _ & H). exact (Hf a s1 b s' H).
Qed.

Lemma returns_only_ret {V A} (Q : A -> Prop) (a : A) :
  Q a -> returns_only Q (mret a : M V A).
Proof. intros HQ s a' s' H. inversion H. subst. exact HQ. Qed.

(** ** The session manager of the first variant *)

Section Session.
Context (R : Remote).

Definition missing_credential : Thrown :=
  Error "HUGGINGFACE_API_KEY is required for IDM-VTON".

Lemma getClient_cached c w :
  Cached.getClient R (Some c, w) = (Ok c, (Some c, w)).
Proof. reflexivity. Qed.

Lemma getClient_no_token w :
  hasToken (HUGGINGFACE_API_KEY w) = false ->
  Cached.getClient R (None, w) = (Throw missing_credential, (None, w)).
Proof.
  intros H. unfold Cached.getClient. run_monad. rewrite H. reflexivity.
Qed.

(** The three ways a fresh acquisition can go. *)
Lemma getClient_direct w c :
  hasToken (HUGGINGFACE_API_KEY w) = true ->
  connect R SPACE_ID (HUGGINGFACE_API_KEY w) (trace w) = inr c ->
  Cached.getClient R (None, w) =
    (Ok c, (Some c, record_event (EConnect SPACE_ID (HUGGINGFACE_API_KEY w)) w)).
Proof.
  intros T C. unfold Cached.getClient, try_catch, Client_connect, call.
  run_monad. rewrite T. simpl. rewrite C. reflexivity.
Qed.

Lemma getClient_after_failed_connect w e :
  hasToken (HUGGINGFACE_API_KEY w) = true ->
  connect R SPACE_ID (HUGGINGFACE_API_KEY w) (trace w) = inl (ThrownError e) ->
  let key := HUGGINGFACE_API_KEY w in
  let opts := mkDuplicate key 300 true in
  let w' := record_event (EDuplicate SPACE_ID opts) (record_event (EConnect SPACE_ID key) w) in
  Cached.getClient R (None, w) =
    match duplicate R SPACE_ID opts (EConnect SPACE_ID key :: trace w) with
    | inr c => (Ok c, (Some c, w'))
    | inl e' => (Throw e', (None, w'))
    end.
Proof.
  intros T C. unfold Cached.getClient, try_catch, Client_connect, Client_duplicate, call.
  run_monad. rewrite T. simpl. rewrite C. simpl.
  destruct (duplicate R SPACE_ID _ _); reflexivity.
Qed.

(** When the connection is rejected with [null] or [undefined], the
    [catch] of line 53 throws while printing [connectError.message]: the
    duplication is not attempted. *)
Lemma getClient_nullish_connect w x :
  hasToken (HUGGINGFACE_API_KEY w) = true ->
  connect R SPACE_ID (HUGGINGFACE_API_KEY w) (trace w) = inl x ->
  x = ThrownNull \/ x = ThrownUndefined ->
  Cached.getClient R (None, w) =
    (Throw (cannot_read_message x),
     (None, record_event (EConnect SPACE_ID (HUGGINGFACE_API_KEY w)) w)).
Proof.
  intros T C N. unfold Cached.getClient, try_catch, Client_connect, call.
  run_monad. rewrite T. simpl. rewrite C. destruct N; subst x; reflexivity.
Qed.

Lemma getClient_Ok_cached s c s' :
  Cached.getClient R s = (Ok c, s') -> fst s' = Some c.
Proof.
  destruct s as [[c0|] w].
  - rewrite getClient_cached. intros H. inversion H. reflexivity.
  - destruct (hasToken (HUGGINGFACE_API_KEY w)) eqn:T.
    + destruct (connect R SPACE_ID (HUGGINGFACE_API_KEY w) (trace w)) as [[ | |e]|c1] eqn:C.
      * rewrite (getClient_nullish_connect w _ T C) by auto. discriminate.
      * rewrite (getClient_nullish_connect w _ T C) by auto. discriminate.
      * rewrite (getClient_after_failed_connect w e T C). cbv zeta.
        destruct (duplicate R _ _ _); intros H; inversion H; reflexivity.
      * rewrite (getClient_direct w c1 T C). intros H; inversion H; reflexivity.
    + rewrite (getClient_no_token w T). discriminate.
Qed.

(** With a credential and no cached handle, the first call [getClient]
    makes is the direct connection. *)
Lemma getClient_connects_first w :
  hasToken (HUGGINGFACE_API_KEY w) = true ->
  exists evs,
    trace (snd (snd (Cached.getClient R (None, w)))) =
      evs ++ EConnect SPACE_ID (HUGGINGFACE_API_KEY w) :: trace w.
Proof.
  intros T.
  destruct (connect R SPACE_ID (HUGGINGFACE_API_KEY w) (trace w)) as [[ | |e]|c1] eqn:C.
  - rewrite (getClient_nullish_connect w _ T C) by auto. exists []. reflexivity.
  - rewrite (getClient_nullish_connect w _ T C) by auto. exists []. reflexivity.
  - rewrite (getClient_after_failed_connect w e T C). cbv zeta.
    destruct (duplicate R _ _ _); eexists [_]; reflexivity.
  - rewrite (getClient_direct w c1 T C). exists []. reflexivity.
Qed.
End Session.

(** C6. With no cached handle and a credential, [getClient] first calls
    [Client.connect] on the fixed Space; only when that fails does it call
    [Client.duplicate] on the same Space, with a timeout of 300 and
    [private: true]; a handle obtained either way is stored in
    [cachedClient] and returned; when both fail the error of the
    duplication is thrown and nothing is cached.  (A connection rejected
    with [null] or [undefined] makes the [catch] throw while it prints the
    message: the duplication is then not attempted.) *)
Theorem getClient_connect_then_duplicate (R : Remote) (w : World) :
  hasToken (HUGGINGFACE_API_KEY w) = true ->
  let key := HUGGINGFACE_API_KEY w in
  let direct := EConnect SPACE_ID key in
  let provision := EDuplicate SPACE_ID (mkDuplicate key 300 true) in
  Cached.getClient R (None, w) =
    match connect R SPACE_ID key (trace w) with
    | inr c => (Ok c, (Some c, record_event direct w))
    | inl (ThrownError _) =>
      match duplicate R SPACE_ID (mkDuplicate key 300 true) (direct :: trace w) with
      | inr c => (Ok c, (Some c, record_event provision (record_event direct w)))
      | inl e => (Throw e, (None, record_event provision (record_event direct w)))
      end
    | inl x => (Throw (cannot_read_message x), (None, record_event direct w))
    end.
Proof.
  intros T key direct provision. subst key direct provision.
  destruct (connect R SPACE_ID (HUGGINGFACE_API_KEY w) (trace w)) as [[ | |e]|c] eqn:C.
  - apply (getClient_nullish_connect R w _ T C). auto.
  - apply (getClient_nullish_connect R w _ T C). auto.
  - rewrite (getClient_after_failed_connect R w e T C). cbv zeta.
    destruct (duplicate R SPACE_ID _ _); reflexivity.
  - apply (getClient_direct R w c T C).
Qed.

(** ** The status probe *)

(** C9. [checkModelStatus] makes one external call, the direct connection
    to the fixed Space with the credential as found in the environment,
    and never a duplication; its result and the calls it makes do not
    depend on [cachedClient], which it leaves as it was, also when the
    connection fails; it returns [available: true, status: 'Connected']
    when the connection succeeds and [available: false] with the error's
    message when it fails with an object.  It does throw, though, when
    the connection is rejected with [null] or [undefined]: line 182 reads
    [error.message], and that [TypeError] leaves the function.  Both
    variants agree. *)
Theorem checkModelStatus_run (R : Remote) (w : World) :
  let key := HUGGINGFACE_API_KEY w in
  let answer :=
    match connect R SPACE_ID key (trace w) with
    | inr _ => Ok (Available "Connected")
    | inl (ThrownError e) => Ok (Unavailable (message e))
    | inl x => Throw (cannot_read_message x)
    end in
  (forall cachedClient : option Client,
     Cached.checkModelStatus R (cachedClient, w) =
       (answer, (cachedClient, record_event (EConnect SPACE_ID key) w))) /\
  (forall (V : Type) (v : V),
     TempFile.checkModelStatus R (v, w) =
       (answer, (v, record_event (EConnect SPACE_ID key) w))).
Proof.
  cbv zeta. split; [intros v | intros V v];
    unfold Cached.checkModelStatus, TempFile.checkModelStatus, try_catch, Client_connect, call;
    run_monad;
    destruct (connect R SPACE_ID (HUGGINGFACE_API_KEY w) (trace w)) as [[ | |e]|c];
    reflexivity.
Qed.

Example checkModelStatus_throws_on_null :
  Cached.checkModelStatus (Sample.rejecting ThrownNull) (None, Sample.world (Some "hf_abc")) =
    (Throw (TypeError "Cannot read properties of null (reading 'message')"),
     (None, mkWorld (Some "hf_abc") ∅ [EConnect SPACE_ID (Some "hf_abc")])).
Proof. reflexivity. Qed.

(** ** Exceptions that escape *)

(** C1. [performTryOn] does let an exception escape.  Its handler reads
    [error.message] before anything else (lines 153 and 309), and that
    read throws on [null] and [undefined].  So when an awaited call is
    rejected with one of the two (here the fetch of the person image, with
    a handle cached, in the first variant, and the connection in the second)
    the caller gets a [TypeError] and no failure outcome; in the first
    variant the cached handle is not cleared either. *)
Theorem performTryOn_lets_a_nullish_rejection_escape
  (R : Remote) (p g : string) (x : Thrown) :
  x = ThrownNull \/ x = ThrownUndefined ->
  (forall (c : Client) (w : World),
     http_get R (VStr p) (trace w) = inl x ->
     Cached.performTryOn R p g (Some c, w) =
       (Throw (cannot_read_message x), (Some c, record_event (EGet (VStr p)) w))) /\
  (forall (V : Type) (v : V) (w : World),
     connect R SPACE_ID (HUGGINGFACE_API_KEY w) (trace w) = inl x ->
     TempFile.performTryOn R p g (v, w) =
       (Throw (cannot_read_message x),
        (v, record_event (EConnect SPACE_ID (HUGGINGFACE_API_KEY w)) w))).
Proof.
  intros N. split.
  - intros c w G.
    apply (performTryOn_lets_nullish_escape R p g (Some c, w) _ x); [| exact N].
    unfold Cached.tryOn. rewrite run_bind, getClient_cached.
    unfold Cached.fetchImageBlob, axios_get. rewrite !run_bind.
    unfold call. cbn [fst snd]. rewrite G. reflexivity.
  - intros V v w C. unfold TempFile.performTryOn. rewrite run_bind. unfold Date_now at 1.
    unfold with_locals, try_finally, try_catch. cbn [fst snd].
    assert (T : TempFile.tryOn R p g (now R (trace w)) (TempFile.mkLocals None None, w) =
                (Throw x, (TempFile.mkLocals None None,
                           record_event (EConnect SPACE_ID (HUGGINGFACE_API_KEY w)) w))).
    { unfold TempFile.tryOn, Client_connect. rewrite run_bind, getenv_run. cbv beta iota.
      rewrite run_bind. unfold call. cbn [fst snd]. rewrite C. reflexivity. }
    rewrite T, TempFile_onError_run. destruct N; subst x; reflexivity.
Qed.

Lemma performTryOn_lets_a_nullish_rejection_escape_witness :
  Cached.performTryOn (Sample.rejecting ThrownNull) Sample.person Sample.garment
    (Some (mkClient 7), Sample.world (Some "hf_abc")) =
  (Throw (TypeError "Cannot read properties of null (reading 'message')"),
   (Some (mkClient 7), mkWorld (Some "hf_abc") ∅ [EGet (VStr Sample.person)])).
Proof.
  exact (proj1 (performTryOn_lets_a_nullish_rejection_escape
                  (Sample.rejecting ThrownNull) Sample.person Sample.garment ThrownNull
                  (or_introl eq_refl))
           (mkClient 7) (Sample.world (Some "hf_abc")) eq_refl).
Defined.

Example performTryOn_throws_on_undefined :
  TempFile.performTryOn (Sample.rejecting ThrownUndefined) Sample.person Sample.garment
    (tt, Sample.world None) =
  (Throw (TypeError "Cannot read properties of undefined (reading 'message')"),
   (tt, mkWorld None ∅ [EConnect SPACE_ID None])).
Proof. reflexivity. Qed.

(** ** Steps of the two orchestrators *)

(** Closes [forall e, is_io e = true -> P e = true] for a concrete [P]. *)
Ltac io_side :=
  first
    [ apply same_vars_io
    | apply same_files_io
    | apply adds_io; intros [] ?; first [reflexivity | discriminate] ].

Ltac steps_prog :=
  repeat first
    [ progress cbv zeta
    | apply steps_normalizeOutput; [tc_solve | io_side]
    | apply steps_describeData; tc_solve
    | apply steps_firstOutput; tc_solve
    | apply steps_axios_get; io_side
    | apply steps_fs_existsSync; tc_solve
    | apply steps_fs_writeFileSync; [tc_solve | io_side | intros ?; steps_tac]
    | apply steps_fs_unlinkSync; [tc_solve | io_side | intros ?; steps_tac]
    | progress steps_tac ].

Section Orchestrator_steps.
Context (R : Remote).

Definition not_session_setup (e : Event) : bool := negb (is_session_setup e).
Definition any_event (e : Event) : bool := true.

Lemma tryOn_returns_Success p g t0 :
  returns_only (λ r, is_success r = true) (Cached.tryOn R p g t0).
Proof.
  unfold Cached.tryOn.
  repeat first [ apply returns_only_bind; intros ? | progress cbv zeta ].
  apply returns_only_ret. reflexivity.
Qed.

Lemma emits_fs_unlinkSync {V} P path :
  P (EFs (OpUnlink path)) = true -> emits P (fs_unlinkSync R path : M V unit).
Proof.
  intros HP. unfold fs_unlinkSync, fs_call.
  apply steps_bind; [tc_solve | apply emits_call, HP | intros ?].
  apply steps_bind; [tc_solve | steps_tac | intros w].
  destruct (files w !! path); steps_tac.
Qed.

Lemma emits_removeIfPresent {V} P tempPath :
  (forall path, P (EFs (OpUnlink path)) = true) ->
  emits P (TempFile.removeIfPresent R tempPath : M V unit).
Proof.
  intros HP. unfold TempFile.removeIfPresent. destruct tempPath as [path|]; [|steps_tac].
  apply steps_bind; [tc_solve | unfold fs_existsSync; steps_tac | intros present].
  destruct (_ && _); [apply emits_fs_unlinkSync, HP | steps_tac].
Qed.

(** The [finally] block makes no call but deletions. *)
Lemma emits_cleanup P :
  (forall path, P (EFs (OpUnlink path)) = true) -> emits P (TempFile.cleanup R).
Proof.
  intros HP. unfold TempFile.cleanup.
  apply steps_try_catch; [tc_solve | | intros ?; steps_tac].
  apply steps_bind; [tc_solve | steps_tac | intros l].
  apply steps_bind; [tc_solve | apply emits_removeIfPresent, HP | intros ?].
  apply emits_removeIfPresent, HP.
Qed.

Lemma TempFile_tryOn_returns_Success p g t0 :
  returns_only (λ r, is_success r = true) (TempFile.tryOn R p g t0).
Proof.
  unfold TempFile.tryOn.
  repeat first [ apply returns_only_bind; intros ? | progress cbv zeta ].
  apply returns_only_ret. reflexivity.
Qed.

(** How an invocation that returned went: the [try] body returned a
    success, or it threw an object and the handler made a failure of it. *)
Lemma Cached_performTryOn_Ok_inv p g (s s1 : option Client * World) r :
  Cached.performTryOn R p g s = (Ok r, s1) ->
  (is_success r = true /\
   Cached.tryOn R p g (now R (trace (snd s))) s = (Ok r, s1)) \/
  (exists e s2,
     Cached.tryOn R p g (now R (trace (snd s))) s = (Throw (ThrownError e), s2) /\
     r = Failure (message_or_default e) (now R (trace (snd s2)) - now R (trace (snd s))) /\
     s1 = (None, snd s2)).
Proof.
  intros H. unfold Cached.performTryOn in H. rewrite run_bind in H.
  unfold Date_now at 1 in H. unfold try_catch in H.
  destruct (Cached.tryOn R p g (now R (trace (snd s))) s) as [[r0|x] s2] eqn:E.
  - inversion H; subst r0 s2. left. split; [| reflexivity].
    exact (tryOn_returns_Success p g _ _ _ _ E).
  - apply Cached_onError_Ok_inv in H as (e & -> & -> & ->). right. eauto.
Qed.

(** The same for the second variant, where the [finally] block runs
    on the state the [try] or its handler left, and returned as well. *)
Lemma TempFile_performTryOn_Ok_inv {V} p g (s s1 : V * World) r :
  TempFile.performTryOn R p g s = (Ok r, s1) ->
  exists s2 s3,
    TempFile.cleanup R s2 = (Ok tt, s3) /\ s1 = (fst s, snd s3) /\
    ((is_success r = true /\
      TempFile.tryOn R p g (now R (trace (snd s))) (TempFile.mkLocals None None, snd s)
        = (Ok r, s2)) \/
     (exists e,
        TempFile.tryOn R p g (now R (trace (snd s))) (TempFile.mkLocals None None, snd s)
          = (Throw (ThrownError e), s2) /\
        r = Failure (message_or_default e) (now R (trace (snd s2)) - now R (trace (snd s))))).
Proof.
  intros H. unfold TempFile.performTryOn in H. rewrite run_bind in H.
  unfold Date_now at 1 in H. unfold with_locals, try_finally, try_catch in H.
  cbn [fst snd] in H.
  destruct (TempFile.tryOn R p g (now R (trace (snd s))) (TempFile.mkLocals None None, snd s))
    as [[r0|x] s2] eqn:E.
  - destruct (TempFile.cleanup R s2) as [[[]|x] [l3 w3]] eqn:C; [| discriminate H].
    inversion H; subst r0 s1. exists s2, (l3, w3).
    split; [exact C|]. split; [reflexivity|]. left. split; [| reflexivity].
    exact (TempFile_tryOn_returns_Success p g _ _ _ _ E).
  - rewrite TempFile_onError_run in H. destruct x as [ | | e].
    + destruct (TempFile.cleanup R s2) as [[[]|x] [l3 w3]]; discriminate H.
    + destruct (TempFile.cleanup R s2) as [[[]|x] [l3 w3]]; discriminate H.
    + destruct (TempFile.cleanup R s2) as [[[]|x] [l3 w3]] eqn:C; [| discriminate H].
      inversion H; subst r s1. exists s2, (l3, w3).
      split; [exact C|]. split; [reflexivity|]. right. exists e. auto.
Qed.

(** With a cached handle, [performTryOn] establishes no session. *)
Lemma performTryOn_cached_steps p g c w :
  adds not_session_setup (Some c, w) (snd (Cached.performTryOn R p g (Some c, w))).
Proof.
  unfold Cached.performTryOn. rewrite run_bind. unfold Date_now at 1. cbn [snd fst].
  eapply adds_trans;
    [| apply (steps_from_try_catch (adds not_session_setup)); intros e ].
  - unfold Cached.tryOn.
    change (Some c, w) with (snd (Cached.getClient R (Some c, w))) at 1.
    apply (steps_from_bind (adds not_session_setup)); intros client.
    unfold Cached.fetchImageBlob, client_predict. steps_prog.
  - unfold Cached.onError. steps_prog.
Qed.

(** The second variant opens a connection first, whatever the state. *)
Lemma TempFile_connects_first {V} p g (s : V * World) :
  exists evs,
    trace (snd (snd (TempFile.performTryOn R p g s))) =
      evs ++ EConnect SPACE_ID (HUGGINGFACE_API_KEY (snd s)) :: trace (snd s).
Proof.
  unfold TempFile.performTryOn. rewrite run_bind. unfold Date_now at 1.
  cbn [snd fst]. unfold with_locals.
  set (s0 := (TempFile.mkLocals None None, snd s)).
  set (t0 := now R (trace (snd s))).
  assert (H : adds any_event
                (snd (Client_connect R SPACE_ID (HUGGINGFACE_API_KEY (snd s)) s0))
                (snd (try_finally
                        (try_catch (TempFile.tryOn R p g t0) (TempFile.onError R t0))
                        (TempFile.cleanup R) s0))).
  { eapply adds_trans;
      [| apply (steps_from_try_finally (adds any_event));
         apply emits_cleanup; intros; reflexivity ].
    eapply adds_trans;
      [| apply (steps_from_try_catch (adds any_event)); intros e ].
    - unfold TempFile.tryOn. rewrite run_bind, getenv_run. cbv beta iota.
      apply (steps_from_bind (adds any_event)); intros client.
      unfold TempFile.downloadToTempFile, client_predict. steps_prog.
    - unfold TempFile.onError. steps_prog. }
  destruct H as (evs & E & _). exists evs.
  destruct (try_finally _ _ s0) as [r [l w]]. cbn [snd] in *. rewrite E.
  unfold Client_connect, call, s0. cbn [snd].
  destruct (connect R _ _ _); reflexivity.
Qed.
End Orchestrator_steps.

Lemma adds_no_session_setup {V} (s s' : V * World) :
  adds not_session_setup s s' ->
  List.filter is_session_setup (trace (snd s')) = List.filter is_session_setup (trace (snd s)).
Proof.
  intros (evs & E & F). rewrite E, List.filter_app.
  replace (List.filter is_session_setup evs) with (@nil Event); [reflexivity|].
  clear E. induction evs as [|e evs IH]; [reflexivity|].
  cbn in F. apply andb_prop in F as [Fe F]. cbn.
  unfold not_session_setup in Fe. destruct (is_session_setup e); [discriminate | auto].
Qed.

(** ** The credential *)

(** C3, as amended. In the variant with [getClient], when the credential
    is absent (undefined or empty) and no handle is cached, [performTryOn]
    returns the failure whose message is
    'HUGGINGFACE_API_KEY is required for IDM-VTON' and makes no external
    call at all.  The variant with temporary files has no such gate: its
    first call is the direct connection, with the credential as found. *)
Theorem missing_credential_stops_getClient (R : Remote) (p g : string) (w : World) :
  hasToken (HUGGINGFACE_API_KEY w) = false ->
  (exists t, Cached.performTryOn R p g (None, w) =
     (Ok (Failure "HUGGINGFACE_API_KEY is required for IDM-VTON" t), (None, w))) /\
  (forall (V : Type) (v : V), exists evs,
     trace (snd (snd (TempFile.performTryOn R p g (v, w)))) =
       evs ++ EConnect SPACE_ID (HUGGINGFACE_API_KEY w) :: trace w).
Proof.
  intros T. split.
  - unfold Cached.performTryOn. rewrite run_bind. unfold Date_now at 1.
    unfold try_catch, Cached.tryOn. rewrite run_bind. cbn [fst snd].
    rewrite (getClient_no_token R w T). eexists. reflexivity.
  - intros V v. apply (TempFile_connects_first R p g (v, w)).
Qed.

Lemma missing_credential_stops_getClient_witness :
  (exists t, Cached.performTryOn Sample.healthy "https://x/p.jpg" "https://x/g.jpg"
               (None, Sample.world None) =
     (Ok (Failure "HUGGINGFACE_API_KEY is required for IDM-VTON" t),
      (None, Sample.world None))) /\
  (forall (V : Type) (v : V), exists evs,
     trace (snd (snd (TempFile.performTryOn Sample.healthy "https://x/p.jpg" "https://x/g.jpg"
                        (v, Sample.world None)))) =
       evs ++ EConnect SPACE_ID None :: []).
Proof.
  apply (missing_credential_stops_getClient Sample.healthy
           "https://x/p.jpg" "https://x/g.jpg" (Sample.world None)).
  reflexivity.
Defined.

(** C3 as stated fails on the variant with temporary files: without a
    credential it connects, fetches and succeeds. *)
Lemma TempFile_has_no_credential_gate :
  ~ (forall (R : Remote) (p g : string) (w : World),
       hasToken (HUGGINGFACE_API_KEY w) = false ->
       exists msg t s',
         TempFile.performTryOn R p g (tt, w) = (Ok (Failure msg t), s') /\
         List.filter is_network (trace (snd s')) = List.filter is_network (trace w)).
Proof.
  intros claim.
  destruct (claim Sample.healthy "https://x/p.jpg" "https://x/g.jpg" (Sample.world None) eq_refl)
    as (msg & t & s' & run & _).
  vm_compute in run. discriminate run.
Qed.

(** ** The cached handle *)

(** C4. When [performTryOn] returns a failure, [cachedClient] is [null]
    afterwards, so that the next [getClient] does not reuse a handle: with
    a credential its first call is a new direct connection, and without one
    it throws the configuration error.  The variant with temporary files
    keeps no handle and connects anew on every invocation. *)
Theorem failure_clears_cachedClient
  (R : Remote) (p g : string) (s s' : option Client * World) (msg : string) (t : Z) :
  Cached.performTryOn R p g s = (Ok (Failure msg t), s') ->
  fst s' = None /\
  (if hasToken (HUGGINGFACE_API_KEY (snd s'))
   then exists evs,
          trace (snd (snd (Cached.getClient R s'))) =
            evs ++ EConnect SPACE_ID (HUGGINGFACE_API_KEY (snd s')) :: trace (snd s')
   else Cached.getClient R s' = (Throw missing_credential, s')) /\
  (forall (V : Type) (s2 : V * World) (p' g' : string), exists evs,
     trace (snd (snd (TempFile.performTryOn R p' g' s2))) =
       evs ++ EConnect SPACE_ID (HUGGINGFACE_API_KEY (snd s2)) :: trace (snd s2)).
Proof.
  intros H.
  assert (C : fst s' = None).
  { unfold Cached.performTryOn in H. rewrite run_bind in H. unfold Date_now at 1 in H.
    unfold try_catch in H.
    destruct (Cached.tryOn R p g (now R (trace (snd s))) s) as [[r|e] s1] eqn:E.
    - inversion H; subst. apply tryOn_returns_Success in E. discriminate E.
    - apply Cached_onError_Ok_inv in H as (e' & _ & _ & ->). reflexivity. }
  split; [exact C|]. split.
  - destruct s' as [v w]. cbn [fst snd] in *. subst v.
    destruct (hasToken (HUGGINGFACE_API_KEY w)) eqn:T.
    + apply getClient_connects_first, T.
    + apply getClient_no_token, T.
  - intros V s2 p' g'. apply TempFile_connects_first.
Qed.

(** C5. A cached handle is returned by [getClient] as it is, with no
    call and no check; an invocation that starts with a cached handle
    makes no connection and no duplication; after a successful invocation
    a handle is cached, so the next invocation adds no connection and no
    duplication to those already made. *)
Theorem cached_client_is_reused
  (R : Remote) (p g : string) (s s1 : option Client * World) (b : list Byte.byte) (t : Z) :
  Cached.performTryOn R p g s = (Ok (Success b t), s1) ->
  (forall c w, Cached.getClient R (Some c, w) = (Ok c, (Some c, w))) /\
  (forall c w p' g',
     adds not_session_setup (Some c, w) (snd (Cached.performTryOn R p' g' (Some c, w)))) /\
  (exists c, fst s1 = Some c) /\
  (forall p' g',
     List.filter is_session_setup (trace (snd (snd (Cached.performTryOn R p' g' s1)))) =
     List.filter is_session_setup (trace (snd s1))).
Proof.
  intros H.
  assert (C : exists c, fst s1 = Some c).
  { unfold Cached.performTryOn in H. rewrite run_bind in H. unfold Date_now at 1 in H.
    unfold try_catch in H.
    destruct (Cached.tryOn R p g (now R (trace (snd s))) s) as [[r|e] s2] eqn:E.
    - inversion H; subst. unfold Cached.tryOn in E.
      apply bind_Ok_inv in E as (c & sa & G & E). exists c.
      apply getClient_Ok_cached in G. rewrite <- G.
      match type of E with ?m sa = _ =>
        pose proof (steps_apply same_vars m sa) as K end.
      rewrite E in K. apply K.
      unfold Cached.fetchImageBlob, client_predict. steps_prog.
    - apply Cached_onError_Ok_inv in H as (e' & _ & F & _). discriminate F. }
  split; [intros; apply getClient_cached|].
  split; [intros; apply performTryOn_cached_steps|].
  split; [exact C|].
  intros p' g'. destruct C as [c C]. destruct s1 as [v w]. cbn [fst] in C. subst v.
  apply adds_no_session_setup, performTryOn_cached_steps.
Qed.

(** ** The successful path of the first variant, step by step *)

Lemma ret_Ok_inv {V A} (a a' : A) (s s' : V * World) :
  (mret a : M V A) s = (Ok a', s') -> a' = a /\ s' = s.
Proof. intros H. inversion H. auto. Qed.

(** Only an array without [null] gets past lines 117 and 120. *)
Lemma describe_first_Ok_inv {V} (data out : JSValue) (u : unit) (s s1 s2 : V * World) :
  describeData data s = (Ok u, s1) ->
  firstOutput data s1 = (Ok out, s2) ->
  exists items, data = VArr items /\ existsb is_null items = false /\
                out = hd VUndefined items /\ s2 = s.
Proof.
  intros D F.
  destruct data as [ | | b | n | str | b | items | fields ]; try discriminate D;
    try discriminate F.
  exists items. unfold describeData in D.
  destruct (existsb is_null items); [discriminate D|].
  inversion D. inversion F. subst. auto.
Qed.

Section Cached_success.
Context (R : Remote).

Lemma Cached_tryOn_inv p g t0 s r s1 :
  Cached.tryOn R p g t0 s = (Ok r, s1) ->
  exists c sa pb gb items,
    Cached.getClient R s = (Ok c, sa) /\
    http_get R (VStr p) (trace (snd sa)) = inr pb /\
    http_get R (VStr g) (EGet (VStr p) :: trace (snd sa)) = inr gb /\
    let payload := Cached.tryon_arguments (FromBlob (mkBlob pb "image/jpeg"))
                                          (FromBlob (mkBlob gb "image/jpeg")) in
    let h := EGet (VStr g) :: EGet (VStr p) :: trace (snd sa) in
    predict R c "/tryon" payload h = inr (VArr items) /\
    existsb is_null items = false /\
    let s_call := (fst sa,
                   record_event (EPredict c "/tryon" payload)
                     (record_event (EGet (VStr g))
                        (record_event (EGet (VStr p)) (snd sa)))) in
    exists buf,
      normalizeOutput R (hd VUndefined items) s_call = (Ok buf, s1) /\
      r = Success buf (now R (trace (snd s_call)) - t0).
Proof.
  unfold Cached.tryOn, Cached.fetchImageBlob, handle_file. intros H.
  apply bind_Ok_inv in H as (c & sa & G & H).
  apply bind_Ok_inv in H as (pblob & s2 & P & H).
  apply bind_Ok_inv in P as (pb & s2' & P & P').
  apply call_Ok_inv in P as (P & ->). apply ret_Ok_inv in P' as (-> & ->).
  apply bind_Ok_inv in H as (gblob & s3 & Gm & H).
  apply bind_Ok_inv in Gm as (gb & s3' & Gm & Gm').
  apply call_Ok_inv in Gm as (Gm & ->). apply ret_Ok_inv in Gm' as (-> & ->).
  cbv zeta in H.
  apply bind_Ok_inv in H as (data & s4 & Pr & H).
  apply call_Ok_inv in Pr as (Pr & ->).
  apply bind_Ok_inv in H as (t1 & s5 & T & H).
  unfold Date_now in T. inversion T; subst t1 s5; clear T.
  cbv zeta in H.
  apply bind_Ok_inv in H as (u & s5 & D & H).
  apply bind_Ok_inv in H as (out & s6 & F & H).
  destruct (describe_first_Ok_inv _ _ _ _ _ _ D F) as (items & -> & N & -> & ->).
  apply bind_Ok_inv in H as (buf & s7 & Nm & H). apply ret_Ok_inv in H as (-> & ->).
  exists c, sa, pb, gb, items. cbn [snd fst trace record_event] in *.
  repeat split; try assumption.
  exists buf. split; [exact Nm | reflexivity].
Qed.

Lemma emits_getClient : emits is_session_setup (Cached.getClient R).
Proof.
  unfold Cached.getClient, Client_connect, Client_duplicate.
  apply steps_bind; [tc_solve | steps_tac | intros [c|]]; [steps_tac|].
  apply steps_bind; [tc_solve | steps_tac | intros key].
  destruct (negb (hasToken key)); [steps_tac|].
  apply steps_bind; [tc_solve | steps_tac | intros [c|]]; steps_tac.
Qed.
End Cached_success.

(** ** The successful path of the second variant, step by step *)

Section TempFile_success.
Context (R : Remote).

Lemma fs_writeFileSync_Ok_inv {V} path data (s s' : V * World) u :
  fs_writeFileSync R path data s = (Ok u, s') ->
  fs_fault R (OpWrite path) (trace (snd s)) = None /\
  s' = (fst s, mkWorld (HUGGINGFACE_API_KEY (snd s))
                       (<[path := data]> (files (snd s)))
                       (EFs (OpWrite path) :: trace (snd s))).
Proof.
  unfold fs_writeFileSync, record, call. run_monad. intros H.
  destruct (fs_fault R (OpWrite path) (trace (snd s))) as [e|].
  - destruct (partial_write R path data (trace (snd s))); discriminate H.
  - split; [reflexivity|]. inversion H. reflexivity.
Qed.

(** The name [downloadToTempFile] gives to its file. *)
Definition temp_name (prefix : string) (t : Z) : string :=
  path_join (tmpdir R) (prefix +:+ "_" +:+ pretty t +:+ ".jpg").

Lemma downloadToTempFile_Ok_inv {V} url prefix (s s' : V * World) path :
  TempFile.downloadToTempFile R url prefix s = (Ok path, s') ->
  exists data,
    http_get R (VStr url) (trace (snd s)) = inr data /\
    path = temp_name prefix (now R (EGet (VStr url) :: trace (snd s))) /\
    fs_fault R (OpWrite path) (EGet (VStr url) :: trace (snd s)) = None /\
    s' = (fst s, mkWorld (HUGGINGFACE_API_KEY (snd s))
                         (<[path := data]> (files (snd s)))
                         (EFs (OpWrite path) :: EGet (VStr url) :: trace (snd s))).
Proof.
  unfold TempFile.downloadToTempFile. intros H.
  apply bind_Ok_inv in H as (data & s1 & G & H). apply call_Ok_inv in G as (G & ->).
  cbv zeta in H.
  apply bind_Ok_inv in H as (t & s2 & T & H).
  unfold Date_now in T. inversion T; subst t s2; clear T.
  apply bind_Ok_inv in H as (u & s3 & W & H).
  apply fs_writeFileSync_Ok_inv in W as (W & ->).
  apply ret_Ok_inv in H as (-> & ->). cbn [fst snd trace record_event] in *.
  exists data. auto.
Qed.

Lemma TempFile_tryOn_inv p g t0 (s s1 : TempFile.Locals * World) r :
  TempFile.tryOn R p g t0 s = (Ok r, s1) ->
  let key := HUGGINGFACE_API_KEY (snd s) in
  let h1 := EConnect SPACE_ID key :: trace (snd s) in
  exists c pb gb items,
    connect R SPACE_ID key (trace (snd s)) = inr c /\
    http_get R (VStr p) h1 = inr pb /\
    let pp := temp_name "person" (now R (EGet (VStr p) :: h1)) in
    let h3 := EFs (OpWrite pp) :: EGet (VStr p) :: h1 in
    http_get R (VStr g) h3 = inr gb /\
    let gp := temp_name "garment" (now R (EGet (VStr g) :: h3)) in
    let h5 := EFs (OpWrite gp) :: EGet (VStr g) :: h3 in
    let payload := TempFile.tryon_arguments (FromPath pp) (FromPath gp) in
    predict R c "/tryon" payload h5 = inr (VArr items) /\
    existsb is_null items = false /\
    let s_call := (TempFile.mkLocals (Some pp) (Some gp),
                   mkWorld key (<[gp := gb]> (<[pp := pb]> (files (snd s))))
                           (EPredict c "/tryon" payload :: h5)) in
    exists buf,
      normalizeOutput R (hd VUndefined items) s_call = (Ok buf, s1) /\
      r = Success buf (now R (trace (snd s_call)) - t0).
Proof.
  unfold TempFile.tryOn, handle_file. intros H.
  apply bind_Ok_inv in H as (key & s' & K & H). rewrite getenv_run in K.
  inversion K; subst key s'; clear K.
  apply bind_Ok_inv in H as (c & s2 & C & H). apply call_Ok_inv in C as (C & ->).
  apply bind_Ok_inv in H as (pp & s3 & P & H).
  apply downloadToTempFile_Ok_inv in P as (pb & P & -> & _ & ->).
  apply bind_Ok_inv in H as (l & s4 & L & H). inversion L; subst l s4; clear L.
  apply bind_Ok_inv in H as (u & s4 & L & H). inversion L; subst u s4; clear L.
  apply bind_Ok_inv in H as (gp & s5 & G & H).
  apply downloadToTempFile_Ok_inv in G as (gb & G & -> & _ & ->).
  apply bind_Ok_inv in H as (l & s6 & L & H). inversion L; subst l s6; clear L.
  apply bind_Ok_inv in H as (u & s6 & L & H). inversion L; subst u s6; clear L.
  cbv zeta in H.
  apply bind_Ok_inv in H as (data & s7 & Pr & H). apply call_Ok_inv in Pr as (Pr & ->).
  apply bind_Ok_inv in H as (t1 & s8 & T & H).
  unfold Date_now in T. inversion T; subst t1 s8; clear T.
  cbv zeta in H.
  apply bind_Ok_inv in H as (u & s9 & D & H).
  apply bind_Ok_inv in H as (out & s10 & F & H).
  destruct (describe_first_Ok_inv _ _ _ _ _ _ D F) as (items & -> & N & -> & ->).
  apply bind_Ok_inv in H as (buf & s11 & Nm & H). apply ret_Ok_inv in H as (-> & ->).
  cbn [fst snd trace files HUGGINGFACE_API_KEY record_event
       TempFile.personTempPath TempFile.garmentTempPath] in *.
  exists c, pb, gb, items. repeat split; try assumption.
  exists buf. split; [exact Nm | reflexivity].
Qed.
End TempFile_success.

Lemma string_app_inv_head (d x y : string) : d +:+ x = d +:+ y -> x = y.
Proof.
  induction d as [|a d IH]; cbn; intros H; [exact H|].
  injection H as H. exact (IH H).
Qed.

Lemma temp_names_differ (R : Remote) (t t' : Z) :
  temp_name R "person" t <> temp_name R "garment" t'.
Proof.
  unfold temp_name, path_join. intros H.
  apply string_app_inv_head in H. cbn in H. discriminate H.
Qed.

Lemma forallb_app_true {A} (P : A -> bool) (l1 l2 : list A) :
  forallb P l1 = true -> forallb P l2 = true -> forallb P (l1 ++ l2) = true.
Proof. intros H1 H2. rewrite forallb_app, H1, H2. reflexivity. Qed.

(** ** The remote call *)

(** C7. Every successful invocation calls the remote procedure once, by
    the name '/tryon', with the fixed arguments: the person image as the
    background of an editor value with no layer and a null composite, the
    garment image, 'A stylish garment', [true], [false], 30 and 42
    (positional in the first variant, named in the second; the images are
    the Blobs, or the temporary files, holding the bytes fetched from the
    two URLs).  The remote result is an array, and the image returned is
    what the normalizer makes of its first element alone. *)
Theorem tryon_call_has_fixed_arguments (R : Remote) (p g : string) :
  (forall (s s1 : option Client * World) (b : list Byte.byte) (t : Z),
     Cached.performTryOn R p g s = (Ok (Success b t), s1) ->
     exists c pb gb items setup after,
       let start := setup ++ trace (snd s) in
       let before := EGet (VStr g) :: EGet (VStr p) :: start in
       let payload :=
         Positional [ AEditor (mkEditor (FromBlob (mkBlob pb "image/jpeg")) [] None);
                      AFile (FromBlob (mkBlob gb "image/jpeg"));
                      AString "A stylish garment";
                      ABool true; ABool false; ANumber 30; ANumber 42 ] in
       forallb is_session_setup setup = true /\
       forallb is_io after = true /\
       trace (snd s1) = after ++ EPredict c "/tryon" payload :: before /\
       http_get R (VStr p) start = inr pb /\
       http_get R (VStr g) (EGet (VStr p) :: start) = inr gb /\
       predict R c "/tryon" payload before = inr (VArr items) /\
       exists s_call,
         trace (snd s_call) = EPredict c "/tryon" payload :: before /\
         normalizeOutput R (hd VUndefined items) s_call = (Ok b, s1)) /\
  (forall (V : Type) (s s1 : V * World) (b : list Byte.byte) (t : Z),
     TempFile.performTryOn R p g s = (Ok (Success b t), s1) ->
     exists c pb gb items after,
       let h1 := EConnect SPACE_ID (HUGGINGFACE_API_KEY (snd s)) :: trace (snd s) in
       let pp := temp_name R "person" (now R (EGet (VStr p) :: h1)) in
       let h3 := EFs (OpWrite pp) :: EGet (VStr p) :: h1 in
       let gp := temp_name R "garment" (now R (EGet (VStr g) :: h3)) in
       let before := EFs (OpWrite gp) :: EGet (VStr g) :: h3 in
       let payload :=
         Named [ ("dict", AEditor (mkEditor (FromPath pp) [] None));
                 ("garm_img", AFile (FromPath gp));
                 ("garment_des", AString "A stylish garment");
                 ("is_checked", ABool true);
                 ("is_checked_crop", ABool false);
                 ("denoise_steps", ANumber 30);
                 ("seed", ANumber 42) ] in
       forallb is_io after = true /\
       trace (snd s1) = after ++ EPredict c "/tryon" payload :: before /\
       http_get R (VStr p) h1 = inr pb /\
       http_get R (VStr g) h3 = inr gb /\
       predict R c "/tryon" payload before = inr (VArr items) /\
       exists (s_call s_done : TempFile.Locals * World),
         trace (snd s_call) = EPredict c "/tryon" payload :: before /\
         files (snd s_call) !! pp = Some pb /\
         files (snd s_call) !! gp = Some gb /\
         normalizeOutput R (hd VUndefined items) s_call = (Ok b, s_done)).
Proof.
  split.
  - intros s s1 b t H.
    apply Cached_performTryOn_Ok_inv in H as [(_ & E) | (e & s2 & _ & F & _)];
      [| discriminate F].
    apply Cached_tryOn_inv in E
      as (c & sa & pb & gb & items & G & P & Gm & Pr & N & buf & Nm & Eq).
    inversion Eq; subst buf t; clear Eq.
    destruct (emits_getClient R s) as (setup & Es & Fs). rewrite G in Es. cbn [snd] in Es.
    match type of Nm with normalizeOutput R ?v ?sc = _ =>
      destruct (steps_normalizeOutput R (adds is_io)
                  ltac:(apply adds_io; auto) v sc) as (after & Ea & Fa) end.
    rewrite Nm in Ea. cbn [snd trace record_event] in Ea.
    rewrite Es in *.
    exists c, pb, gb, items, setup, after. cbv zeta.
    repeat split; try assumption.
    eexists. split; [| exact Nm]. cbn [snd trace record_event]. rewrite Es. reflexivity.
  - intros V s s1 b t H.
    apply TempFile_performTryOn_Ok_inv in H
      as (s2 & [l3 w3] & C & -> & [(_ & E) | (e & _ & F)]); [| discriminate F].
    pose proof (emits_cleanup R is_io ltac:(auto) s2) as (cl & Ec & Fc).
    rewrite C in Ec. cbn [snd] in Ec.
    apply TempFile_tryOn_inv in E
      as (c & pb & gb & items & Cn & P & Gm & Pr & N & buf & Nm & Eq).
    inversion Eq; subst buf t; clear Eq.
    match type of Nm with normalizeOutput R ?v ?sc = _ =>
      destruct (steps_normalizeOutput R (adds is_io)
                  ltac:(apply adds_io; auto) v sc) as (after & Ea & Fa) end.
    rewrite Nm in Ea. cbn [fst snd trace files HUGGINGFACE_API_KEY] in *.
    exists c, pb, gb, items, (cl ++ after). cbv zeta.
    split; [apply forallb_app_true; assumption|].
    split; [rewrite Ec, Ea, app_assoc; reflexivity|].
    repeat split; try assumption.
    eexists _, s2. split; [| split; [| split; [| exact Nm]]]; cbn [snd trace files].
    + reflexivity.
    + rewrite lookup_insert_ne by (apply not_eq_sym, temp_names_differ).
      apply lookup_insert_eq.
    + apply lookup_insert_eq.
Qed.

(** ** The elapsed time *)

(** The clock never runs backwards: a later reading is not smaller. *)
Definition monotone_clock (R : Remote) : Prop :=
  forall h evs, now R h <= now R (evs ++ h).

Lemma getClient_extends (R : Remote) s :
  exists evs, trace (snd (snd (Cached.getClient R s))) = evs ++ trace (snd s).
Proof. destruct (emits_getClient R s) as (evs & E & _). exists evs. exact E. Qed.

Lemma tryOn_extends (R : Remote) p g t0 s :
  exists evs, trace (snd (snd (Cached.tryOn R p g t0 s))) = evs ++ trace (snd s).
Proof.
  assert (H : emits any_event (Cached.tryOn R p g t0)).
  { unfold Cached.tryOn, Cached.fetchImageBlob, client_predict.
    apply steps_bind; [tc_solve | | intros client; steps_prog].
    intros s'. destruct (emits_getClient R s') as (evs & E & _).
    exists evs. split; [exact E|]. clear E. induction evs; auto. }
  destruct (H s) as (evs & E & _). exists evs. exact E.
Qed.

Lemma TempFile_tryOn_extends (R : Remote) p g t0 (s : TempFile.Locals * World) :
  exists evs, trace (snd (snd (TempFile.tryOn R p g t0 s))) = evs ++ trace (snd s).
Proof.
  assert (H : emits any_event (TempFile.tryOn R p g t0)).
  { unfold TempFile.tryOn, TempFile.downloadToTempFile, client_predict, Client_connect.
    steps_prog. }
  destruct (H s) as (evs & E & _). exists evs. exact E.
Qed.

(** The deletions of the [finally] block. *)
Definition is_unlink (e : Event) : bool :=
  match e with
  | EFs (OpUnlink _) => true
  | _ => false
  end.

(** C10, as amended. [processingTime] is an integer, the difference of
    two readings of the clock.  The first is taken when [performTryOn]
    starts, before any call.  On a failure the second is taken in the
    handler, on the state the [try] body ended in: in the first variant no
    call follows it, in the second only the deletions of the [finally]
    block do.  On a success it is taken as soon as the remote call has
    returned: the calls that fetch or read the result image come after it
    and are not counted.  Only the sign depends on the clock: the
    difference is non-negative provided the clock does not run backwards. *)
Theorem processingTime_is_a_clock_difference (R : Remote) (p g : string) :
  (forall (s s1 : option Client * World) (r : TryOnResult),
     Cached.performTryOn R p g s = (Ok r, s1) ->
     (monotone_clock R -> 0 <= processingTime_of r) /\
     match r with
     | Failure _ t => t = now R (trace (snd s1)) - now R (trace (snd s))
     | Success _ t =>
       exists c payload before after,
         trace (snd s1) = after ++ EPredict c "/tryon" payload :: before /\
         forallb is_io after = true /\
         t = now R (EPredict c "/tryon" payload :: before) - now R (trace (snd s))
     end) /\
  (forall (V : Type) (s s1 : V * World) (r : TryOnResult),
     TempFile.performTryOn R p g s = (Ok r, s1) ->
     (monotone_clock R -> 0 <= processingTime_of r) /\
     match r with
     | Failure _ t =>
       let s_try := snd (TempFile.tryOn R p g (now R (trace (snd s)))
                           (TempFile.mkLocals None None, snd s)) in
       exists deletions,
         trace (snd s1) = deletions ++ trace (snd s_try) /\
         forallb is_unlink deletions = true /\
         t = now R (trace (snd s_try)) - now R (trace (snd s))
     | Success _ t =>
       exists c payload before after,
         trace (snd s1) = after ++ EPredict c "/tryon" payload :: before /\
         forallb is_io after = true /\
         t = now R (EPredict c "/tryon" payload :: before) - now R (trace (snd s))
     end).
Proof.
  split.
  - intros s s1 r H.
    destruct (tryOn_extends R p g (now R (trace (snd s))) s) as (evs & Ext).
    apply Cached_performTryOn_Ok_inv in H as [(_ & E) | (e & s2 & E & -> & ->)].
    + apply Cached_tryOn_inv in E
        as (c & sa & pb & gb & items & G & P & Gm & Pr & N & buf & Nm & ->).
      destruct (getClient_extends R s) as (setup & Es). rewrite G in Es. cbn [snd] in Es.
      match type of Nm with normalizeOutput R ?v ?sc = _ =>
        destruct (steps_normalizeOutput R (adds is_io)
                    ltac:(apply adds_io; auto) v sc) as (after & Ea & Fa) end.
      rewrite Nm in Ea. cbn [snd trace record_event processingTime_of] in *.
      split.
      * intros Mono. rewrite Es.
        pose proof (Mono (trace (snd s))
                      (EPredict c "/tryon"
                         (Cached.tryon_arguments (FromBlob (mkBlob pb "image/jpeg"))
                                                 (FromBlob (mkBlob gb "image/jpeg")))
                       :: EGet (VStr g) :: EGet (VStr p) :: setup)) as M.
        repeat rewrite <- app_comm_cons in M. lia.
      * eexists _, _, _, after. split; [exact Ea|]. split; [exact Fa | reflexivity].
    + rewrite E in Ext. cbn [snd processingTime_of] in *.
      split; [| reflexivity].
      intros Mono. rewrite Ext. pose proof (Mono (trace (snd s)) evs). lia.
  - intros V s s1 r H.
    destruct (TempFile_tryOn_extends R p g (now R (trace (snd s)))
                (TempFile.mkLocals None None, snd s)) as (evs & Ext).
    apply TempFile_performTryOn_Ok_inv in H
      as (s2 & [l3 w3] & C & -> & [(_ & E) | (e & E & ->)]).
    + pose proof (emits_cleanup R is_io ltac:(auto) s2) as (cl & Ec & Fc).
      rewrite C in Ec. cbn [snd] in Ec.
      apply TempFile_tryOn_inv in E
        as (c & pb & gb & items & Cn & P & Gm & Pr & N & buf & Nm & ->).
      match type of Nm with normalizeOutput R ?v ?sc = _ =>
        destruct (steps_normalizeOutput R (adds is_io)
                    ltac:(apply adds_io; auto) v sc) as (after & Ea & Fa) end.
      rewrite Nm in Ea.
      cbn [fst snd trace files HUGGINGFACE_API_KEY processingTime_of] in *.
      split.
      * intros Mono.
        match goal with |- 0 <= now R (?e1 :: ?e2 :: ?e3 :: ?e4 :: ?e5 :: ?e6 :: ?h) - _ =>
          pose proof (Mono h [e1; e2; e3; e4; e5; e6]) as M end.
        cbn [app] in M. lia.
      * eexists _, _, _, (cl ++ after).
        split; [rewrite Ec, Ea, app_assoc; reflexivity|].
        split; [apply forallb_app_true; assumption | reflexivity].
    + pose proof (emits_cleanup R is_unlink ltac:(auto) s2) as (cl & Ec & Fc).
      rewrite C in Ec. rewrite E in Ext |- *. cbn [snd processingTime_of] in *.
      split.
      * intros Mono. rewrite Ext. pose proof (Mono (trace (snd s)) evs). lia.
      * exists cl. auto.
Qed.

(** ** Temporary files *)

Lemma run_get_var {V B} (f : V -> M V B) (s : V * World) :
  (get_var ≫= f) s = f (fst s) s.
Proof. reflexivity. Qed.

Lemma run_set_var {V B} (v : V) (f : unit -> M V B) (s : V * World) :
  (set_var v ≫= f) s = f tt (v, snd s).
Proof. reflexivity. Qed.

Lemma call_state {V A} (ev : Event) (answer : list Event -> Thrown + A) (s : V * World) :
  snd (call ev answer s) = (fst s, record_event ev (snd s)).
Proof. unfold call. destruct (answer (trace (snd s))); reflexivity. Qed.

Lemma string_app_not_empty (d x : string) (c : Ascii.ascii) : d +:+ String c x <> EmptyString.
Proof. destruct d; discriminate. Qed.

(** No deletion fails. *)
Definition unlink_never_fails (R : Remote) : Prop :=
  forall path h, fs_fault R (OpUnlink path) h = None.

(** A write that fails has not created or truncated its file. *)
Definition failed_write_leaves_nothing (R : Remote) : Prop :=
  forall path data h e,
    fs_fault R (OpWrite path) h = Some e -> partial_write R path data h = None.

Section Temp_files.
Context (R : Remote) (f0 : gmap string (list Byte.byte)).

Definition recorded (l : TempFile.Locals) (path : string) : Prop :=
  TempFile.personTempPath l = Some path \/ TempFile.garmentTempPath l = Some path.

(** Every file that is not as it was at the start ([f0]) is one whose
    path [personTempPath] or [garmentTempPath] holds, and these paths
    are not empty. *)
Definition tracked (s : TempFile.Locals * World) : Prop :=
  (forall path, files (snd s) !! path = f0 !! path \/ recorded (fst s) path) /\
  (forall path, recorded (fst s) path -> path <> EmptyString).

Definition keeps_tracked : relation (TempFile.Locals * World) :=
  λ s s', tracked s -> tracked s'.

#[local] Instance keeps_tracked_preorder : PreOrder keeps_tracked.
Proof. split; [intros s H; exact H | intros s1 s2 s3 H1 H2 H; auto]. Qed.

Lemma keeps_tracked_io A ev (answer : list Event -> Thrown + A) :
  is_io ev = true -> steps keeps_tracked (call ev answer).
Proof. intros _ s H. rewrite call_state. exact H. Qed.

Lemma keeps_tracked_call A ev (answer : list Event -> Thrown + A) :
  steps keeps_tracked (call ev answer).
Proof. intros s H. rewrite call_state. exact H. Qed.

Lemma fs_writeFileSync_Throw_inv {V} path data (s s' : V * World) x :
  failed_write_leaves_nothing R ->
  fs_writeFileSync R path data s = (Throw x, s') ->
  fst s' = fst s /\ files (snd s') = files (snd s).
Proof.
  intros FW. unfold fs_writeFileSync, record, call. run_monad.
  destruct (fs_fault R (OpWrite path) (trace (snd s))) as [e|] eqn:F; [| discriminate].
  rewrite (FW path data _ e F). intros H. inversion H. auto.
Qed.

Lemma downloadToTempFile_spec url prefix (s : TempFile.Locals * World) :
  failed_write_leaves_nothing R ->
  match TempFile.downloadToTempFile R url prefix s with
  | (Ok path, s') =>
    fst s' = fst s /\ path <> EmptyString /\
    forall q, q <> path -> files (snd s') !! q = files (snd s) !! q
  | (Throw _, s') => fst s' = fst s /\ files (snd s') = files (snd s)
  end.
Proof.
  intros FW.
  destruct (TempFile.downloadToTempFile R url prefix s) as [[path|e] s'] eqn:D.
  - apply downloadToTempFile_Ok_inv in D as (data & _ & -> & _ & ->). cbn [fst snd files].
    split; [reflexivity|]. split; [apply string_app_not_empty|].
    intros q Hq. apply lookup_insert_ne. auto.
  - unfold TempFile.downloadToTempFile in D.
    apply bind_Throw_inv in D as [D | (data & s1 & G & D)].
    { pose proof (call_state (EGet (VStr url)) (http_get R (VStr url)) s) as K.
      unfold axios_get in D. rewrite D in K. cbn [snd] in K. subst s'. auto. }
    apply call_Ok_inv in G as (_ & ->). cbv zeta in D.
    apply bind_Throw_inv in D as [D | (t & s2 & T & D)]; [discriminate D|].
    unfold Date_now in T. inversion T; subst t s2; clear T.
    apply bind_Throw_inv in D as [D | (u & s3 & _ & D)]; [|discriminate D].
    apply (fs_writeFileSync_Throw_inv _ _ _ _ _ FW) in D. exact D.
Qed.

(** The [try] body, started with both variables [null]. *)
Lemma tryOn_tracked p g t0 (w : World) :
  failed_write_leaves_nothing R ->
  files w = f0 ->
  tracked (snd (TempFile.tryOn R p g t0 (TempFile.mkLocals None None, w))).
Proof.
  intros FW F. unfold TempFile.tryOn. rewrite run_bind, getenv_run. cbv beta iota.
  set (s0 := (TempFile.mkLocals None None, w)).
  assert (T0 : tracked s0).
  { split; [intros path; left; cbn; rewrite F; reflexivity|].
    intros path [H|H]; discriminate H. }
  rewrite run_bind.
  pose proof (call_state (V:=TempFile.Locals) (EConnect SPACE_ID (HUGGINGFACE_API_KEY (snd s0)))
                (connect R SPACE_ID (HUGGINGFACE_API_KEY (snd s0))) s0) as C.
  unfold Client_connect.
  destruct (call _ _ s0) as [[c|e] s1]; cbn [snd] in C |- *; subst s1; [|exact T0].
  subst s0. cbn [fst snd] in *. rewrite run_bind.
  match goal with |- context [TempFile.downloadToTempFile R p ?pre ?st] =>
    pose proof (downloadToTempFile_spec p pre st FW) as D;
    destruct (TempFile.downloadToTempFile R p pre st) as [[pp|e] s2] end;
    cbn [snd fst files record_event] in D |- *.
  2:{ destruct D as (L & Fs). destruct s2 as [l2 w2]. cbn [fst snd] in *. subst l2.
      split; [intros path; left; cbn [snd]; rewrite Fs, F; reflexivity|].
      intros path [H|H]; discriminate H. }
  destruct D as (L & Npp & Fp). rewrite run_get_var, run_set_var.
  destruct s2 as [l2 w2]. cbn [fst snd] in *. subst l2. cbn [TempFile.garmentTempPath].
  rewrite run_bind.
  match goal with |- context [TempFile.downloadToTempFile R g ?pre ?st] =>
    pose proof (downloadToTempFile_spec g pre st FW) as D;
    destruct (TempFile.downloadToTempFile R g pre st) as [[gp|e] s3] end;
    cbn [snd fst files record_event] in D |- *.
  2:{ destruct D as (L & Fs). destruct s3 as [l3 w3]. cbn [fst snd] in *. subst l3.
      split.
      - intros path. destruct (decide (path = pp)) as [->|Hne].
        + right. left. reflexivity.
        + left. cbn [snd]. rewrite Fs, Fp, F by exact Hne. reflexivity.
      - intros path [H|H]; [inversion H; subst; exact Npp | discriminate H]. }
  destruct D as (L & Ngp & Fg). rewrite run_get_var, run_set_var.
  destruct s3 as [l3 w3]. cbn [fst snd] in *. subst l3. cbn [TempFile.personTempPath].
  match goal with |- tracked (snd (?m ?st)) =>
    apply (steps_apply keeps_tracked m st) end.
  - unfold client_predict.
    repeat first
      [ progress cbv zeta
      | apply keeps_tracked_call
      | apply steps_normalizeOutput; [tc_solve | apply keeps_tracked_io]
      | apply steps_describeData; tc_solve
      | apply steps_firstOutput; tc_solve
      | progress steps_tac ].
  - split.
    + intros path. destruct (decide (path = gp)) as [->|Hg]; [right; right; reflexivity|].
      destruct (decide (path = pp)) as [->|Hp]; [right; left; reflexivity|].
      left. cbn [snd]. rewrite Fg, Fp, F by assumption. reflexivity.
    + intros path [H|H]; inversion H; subst; assumption.
Qed.

Lemma removeIfPresent_spec (o : option string) (s : TempFile.Locals * World) :
  unlink_never_fails R ->
  exists s',
    TempFile.removeIfPresent R o s = (Ok tt, s') /\ fst s' = fst s /\
    files (snd s') =
      match o with
      | Some path => if String.eqb path EmptyString then files (snd s)
                     else delete path (files (snd s))
      | None => files (snd s)
      end.
Proof.
  intros NF. destruct o as [path|]; [| exists s; auto].
  unfold TempFile.removeIfPresent, fs_existsSync. run_monad.
  destruct (String.eqb path EmptyString); cbn [negb andb]; [exists s; auto|].
  destruct (files (snd s) !! path) as [data|] eqn:Lk.
  - rewrite bool_decide_eq_true_2 by eauto.
    unfold fs_unlinkSync, fs_call, call. run_monad. rewrite NF. cbn [fst snd files record_event].
    rewrite Lk. eexists. split; [reflexivity|]. auto.
  - rewrite bool_decide_eq_false_2 by (intros [x Hx]; discriminate Hx).
    exists s. rewrite (delete_id _ _ Lk). auto.
Qed.

(** The [finally] block, when no deletion fails. *)
Lemma cleanup_removes_tracked (s : TempFile.Locals * World) :
  unlink_never_fails R -> tracked s ->
  files (snd (snd (TempFile.cleanup R s))) ⊆ f0.
Proof.
  intros NF (Tf & Tn). unfold TempFile.cleanup, try_catch.
  rewrite run_get_var, run_bind.
  destruct (removeIfPresent_spec (TempFile.personTempPath (fst s)) s NF)
    as (s1 & -> & L1 & F1).
  destruct (removeIfPresent_spec (TempFile.garmentTempPath (fst s)) s1 NF)
    as (s2 & -> & L2 & F2).
  cbn [snd].
  apply map_subseteq_spec. intros path x Hx.
  assert (Hs : files (snd s2) !! path = files (snd s) !! path /\ ~ recorded (fst s) path).
  { rewrite F2, F1 in *. unfold recorded.
    destruct (TempFile.personTempPath (fst s)) as [pp|] eqn:Ep;
      destruct (TempFile.garmentTempPath (fst s)) as [gp|] eqn:Eg.
    - assert (Np : pp <> EmptyString) by (apply Tn; left; exact Ep).
      assert (Ng : gp <> EmptyString) by (apply Tn; right; exact Eg).
      apply String.eqb_neq in Np, Ng. rewrite Np, Ng in *.
      apply lookup_delete_Some in Hx as (G1 & Hx).
      apply lookup_delete_Some in Hx as (P1 & Hx).
      split; [rewrite !lookup_delete_ne by assumption; reflexivity|].
      intros [H|H]; inversion H; congruence.
    - assert (Np : pp <> EmptyString) by (apply Tn; left; exact Ep).
      apply String.eqb_neq in Np. rewrite Np in *.
      apply lookup_delete_Some in Hx as (P1 & Hx).
      split; [rewrite !lookup_delete_ne by assumption; reflexivity|].
      intros [H|H]; inversion H; congruence.
    - assert (Ng : gp <> EmptyString) by (apply Tn; right; exact Eg).
      apply String.eqb_neq in Ng. rewrite Ng in *.
      apply lookup_delete_Some in Hx as (G1 & Hx).
      split; [rewrite !lookup_delete_ne by assumption; reflexivity|].
      intros [H|H]; inversion H; congruence.
    - split; [reflexivity|]. intros [H|H]; discriminate H. }
  destruct Hs as (Hs & Nr). rewrite Hs in Hx.
  destruct (Tf path) as [E|Rc]; [rewrite <- E; exact Hx | contradiction].
Qed.
End Temp_files.

(** C8, as amended. In the variant with temporary files, when no deletion
    fails and a write that fails leaves no file behind, every file the
    invocation created is gone when [performTryOn] completes, whatever the
    collaborators did and whichever way the [try] ended: the files left are
    files that were there before, unchanged.  The variant with Blobs
    leaves the files as they were, unconditionally. *)
Theorem temp_files_are_removed (R : Remote) (p g : string) :
  (unlink_never_fails R -> failed_write_leaves_nothing R ->
   forall (V : Type) (s : V * World),
     files (snd (snd (TempFile.performTryOn R p g s))) ⊆ files (snd s)) /\
  (forall s : option Client * World,
     files (snd (snd (Cached.performTryOn R p g s))) = files (snd s)).
Proof.
  split.
  - intros NF FW V s. unfold TempFile.performTryOn. rewrite run_bind. unfold Date_now at 1.
    unfold with_locals, try_finally, try_catch. cbn [fst snd].
    pose proof (tryOn_tracked R (files (snd s)) p g (now R (trace (snd s))) (snd s)
                  FW eq_refl) as T.
    destruct (TempFile.tryOn R p g (now R (trace (snd s)))
                (TempFile.mkLocals None None, snd s)) as [[r|x] s2]; cbn [snd] in T.
    + pose proof (cleanup_removes_tracked R _ s2 NF T) as C.
      destruct (TempFile.cleanup R s2) as [[[]|e] [l3 w3]]; exact C.
    + rewrite TempFile_onError_run.
      pose proof (cleanup_removes_tracked R _ s2 NF T) as C.
      destruct x as [ | | e];
        destruct (TempFile.cleanup R s2) as [[[]|e'] [l3 w3]]; exact C.
  - intros s.
    apply (steps_apply same_files (Cached.performTryOn R p g) s).
    unfold Cached.performTryOn, Cached.tryOn, Cached.onError, Cached.getClient,
      Cached.fetchImageBlob, client_predict, Client_connect, Client_duplicate.
    apply steps_bind; [tc_solve | steps_tac | intros t0].
    apply steps_try_catch; [tc_solve | | intros e; steps_prog].
    apply steps_bind; [tc_solve | | intros client; steps_prog].
    apply steps_bind; [tc_solve | steps_tac | intros [c|]]; [steps_tac|].
    apply steps_bind; [tc_solve | steps_tac | intros key].
    destruct (negb (hasToken key)); [steps_tac|].
    apply steps_bind; [tc_solve | steps_tac | intros [c|]]; steps_tac.
Qed.

Lemma temp_files_are_removed_witness :
  files (snd (snd (TempFile.performTryOn Sample.healthy Sample.person Sample.garment
                     (tt, Sample.world None)))) ⊆ ∅.
Proof.
  apply (proj1 (temp_files_are_removed Sample.healthy Sample.person Sample.garment)).
  - intros path h. reflexivity.
  - intros path data h e F. reflexivity.
Defined.

(** C8 as stated fails when a deletion fails: the error is caught and both
    files stay. *)
Lemma failed_unlink_leaves_temp_files :
  ~ (forall (R : Remote) (p g : string) (w : World),
       files (snd (snd (TempFile.performTryOn R p g (tt, w)))) ⊆ files w).
Proof.
  intros claim.
  specialize (claim Sample.locked Sample.person Sample.garment (Sample.world None)).
  assert (H : files (snd (snd (TempFile.performTryOn Sample.locked Sample.person
                                 Sample.garment (tt, Sample.world None))))
              !! "/tmp/garment_4000.jpg" = Some Sample.jpeg_g)
    by (vm_compute; reflexivity).
  pose proof (lookup_weaken _ _ _ _ H claim) as K.
  cbn in K. rewrite lookup_empty in K. discriminate K.
Qed.

(** It fails as well when a write fails after the file was created: the
    path is stored in [personTempPath] only once [downloadToTempFile] has
    returned (line 240), so that the [finally] block does not know the
    file, and the empty file stays. *)
Example failed_write_leaves_a_temp_file :
  let run := TempFile.performTryOn Sample.disk_full Sample.person Sample.garment
               (tt, Sample.world None) in
  fst run = Ok (Failure "ENOSPC: no space left on device, write" 3000) /\
  files (snd (snd run)) !! "/tmp/person_2000.jpg" = Some [] /\
  trace (snd (snd run)) =
    [ EFs (OpWrite "/tmp/person_2000.jpg"); EGet (VStr Sample.person); EConnect SPACE_ID None ].
Proof. vm_compute. auto. Qed.

(** ** The theorems at work on the sample collaborators *)

Lemma getClient_connect_then_duplicate_witness :
  hasToken (Some "hf_abc") = true /\
  Cached.getClient Sample.busy (None, Sample.world (Some "hf_abc")) =
    (Ok (mkClient 2),
     (Some (mkClient 2),
      mkWorld (Some "hf_abc") ∅
        [ EDuplicate SPACE_ID (mkDuplicate (Some "hf_abc") 300 true);
          EConnect SPACE_ID (Some "hf_abc") ])).
Proof.
  split; [reflexivity|].
  exact (getClient_connect_then_duplicate Sample.busy (Sample.world (Some "hf_abc")) eq_refl).
Defined.

Lemma failure_clears_cachedClient_witness :
  let s := (Some (mkClient 7), Sample.world (Some "hf_abc")) in
  let s' := snd (Cached.performTryOn Sample.healthy "https://x/missing.jpg" Sample.garment s) in
  fst s' = None /\
  exists evs,
    trace (snd (snd (Cached.getClient Sample.healthy s'))) =
      evs ++ EConnect SPACE_ID (Some "hf_abc") :: trace (snd s').
Proof.
  cbv zeta.
  assert (run : Cached.performTryOn Sample.healthy "https://x/missing.jpg" Sample.garment
                  (Some (mkClient 7), Sample.world (Some "hf_abc")) =
                (Ok (Failure "Request failed with status code 404" 1000),
                 snd (Cached.performTryOn Sample.healthy "https://x/missing.jpg" Sample.garment
                        (Some (mkClient 7), Sample.world (Some "hf_abc")))))
    by (vm_compute; reflexivity).
  destruct (failure_clears_cachedClient _ _ _ _ _ _ _ run) as (cleared & next & _).
  split; [exact cleared | exact next].
Defined.

Lemma cached_client_is_reused_witness :
  let s := (None, Sample.world (Some "hf_abc")) in
  let s1 := snd (Cached.performTryOn Sample.healthy Sample.person Sample.garment s) in
  (exists c, fst s1 = Some c) /\
  List.filter is_session_setup
    (trace (snd (snd (Cached.performTryOn Sample.healthy Sample.person Sample.garment s1)))) =
  List.filter is_session_setup (trace (snd s1)).
Proof.
  cbv zeta.
  assert (run : Cached.performTryOn Sample.healthy Sample.person Sample.garment
                  (None, Sample.world (Some "hf_abc")) =
                (Ok (Success Sample.jpeg_out 4000),
                 snd (Cached.performTryOn Sample.healthy Sample.person Sample.garment
                        (None, Sample.world (Some "hf_abc")))))
    by (vm_compute; reflexivity).
  destruct (cached_client_is_reused _ _ _ _ _ _ _ run) as (_ & _ & cached & again).
  split; [exact cached | apply again].
Defined.

Lemma tryon_call_has_fixed_arguments_witness :
  (exists c pb gb after before,
     trace (snd (snd (Cached.performTryOn Sample.healthy Sample.person Sample.garment
                        (None, Sample.world (Some "hf_abc"))))) =
       after ++
       EPredict c "/tryon"
         (Positional [ AEditor (mkEditor (FromBlob (mkBlob pb "image/jpeg")) [] None);
                       AFile (FromBlob (mkBlob gb "image/jpeg"));
                       AString "A stylish garment";
                       ABool true; ABool false; ANumber 30; ANumber 42 ]) :: before) /\
  (exists c pp gp after before,
     trace (snd (snd (TempFile.performTryOn Sample.healthy Sample.person Sample.garment
                        (tt, Sample.world None)))) =
       after ++
       EPredict c "/tryon"
         (Named [ ("dict", AEditor (mkEditor (FromPath pp) [] None));
                  ("garm_img", AFile (FromPath gp));
                  ("garment_des", AString "A stylish garment");
                  ("is_checked", ABool true);
                  ("is_checked_crop", ABool false);
                  ("denoise_steps", ANumber 30);
                  ("seed", ANumber 42) ]) :: before).
Proof.
  destruct (tryon_call_has_fixed_arguments Sample.healthy Sample.person Sample.garment)
    as (first & second).
  split.
  - assert (run : Cached.performTryOn Sample.healthy Sample.person Sample.garment
                    (None, Sample.world (Some "hf_abc")) =
                  (Ok (Success Sample.jpeg_out 4000),
                   snd (Cached.performTryOn Sample.healthy Sample.person Sample.garment
                          (None, Sample.world (Some "hf_abc")))))
      by (vm_compute; reflexivity).
    destruct (first _ _ _ _ run) as (c & pb & gb & items & setup & after & _ & _ & E & _).
    exists c, pb, gb, after. eexists. exact E.
  - assert (run : TempFile.performTryOn Sample.healthy Sample.person Sample.garment
                    (tt, Sample.world None) =
                  (Ok (Success Sample.jpeg_out 6000),
                   snd (TempFile.performTryOn Sample.healthy Sample.person Sample.garment
                          (tt, Sample.world None))))
      by (vm_compute; reflexivity).
    destruct (second _ _ _ _ _ run) as (c & pb & gb & items & after & _ & E & _).
    exists c. do 2 eexists. exists after. eexists. exact E.
Defined.

Lemma healthy_clock_is_monotone : monotone_clock Sample.healthy.
Proof. intros h evs. cbn. rewrite length_app. lia. Qed.

Lemma processingTime_is_a_clock_difference_witness :
  0 <= processingTime_of (Success Sample.jpeg_out 4000) /\
  exists c payload before after,
    trace (snd (snd (Cached.performTryOn Sample.healthy Sample.person Sample.garment
                       (None, Sample.world (Some "hf_abc"))))) =
      after ++ EPredict c "/tryon" payload :: before /\
    forallb is_io after = true /\
    4000 = now Sample.healthy (EPredict c "/tryon" payload :: before) - now Sample.healthy [].
Proof.
  assert (run : Cached.performTryOn Sample.healthy Sample.person Sample.garment
                  (None, Sample.world (Some "hf_abc")) =
                (Ok (Success Sample.jpeg_out 4000),
                 snd (Cached.performTryOn Sample.healthy Sample.person Sample.garment
                        (None, Sample.world (Some "hf_abc")))))
    by (vm_compute; reflexivity).
  destruct (proj1 (processingTime_is_a_clock_difference Sample.healthy Sample.person
                     Sample.garment) _ _ _ run) as (sign & reading).
  split; [exact (sign healthy_clock_is_monotone) | exact reading].
Defined.

(** C10 as stated fails twice.  On a success whose result is fetched,
    the second reading is taken before the fetch, so it is not a reading
    at the end of the operation: here the invocation ends at 5000 and
    reports 4000.  And when the clock is set back during the call, the
    difference is negative. *)
Lemma processingTime_is_not_read_at_the_end :
  ~ (forall (R : Remote) (p g : string) (s s1 : option Client * World) (r : TryOnResult),
       Cached.performTryOn R p g s = (Ok r, s1) ->
       0 <= processingTime_of r /\
       processingTime_of r = now R (trace (snd s1)) - now R (trace (snd s))).
Proof.
  intros claim.
  assert (run : Cached.performTryOn Sample.healthy Sample.person Sample.garment
                  (None, Sample.world (Some "hf_abc")) =
                (Ok (Success Sample.jpeg_out 4000),
                 snd (Cached.performTryOn Sample.healthy Sample.person Sample.garment
                        (None, Sample.world (Some "hf_abc")))))
    by (vm_compute; reflexivity).
  destruct (claim _ _ _ _ _ _ run) as (_ & E).
  vm_compute in E. discriminate E.
Qed.

Example processingTime_negative_when_clock_set_back :
  fst (Cached.performTryOn Sample.clock_set_back "https://x/missing.jpg" Sample.garment
         (None, Sample.world (Some "hf_abc")))
  = Ok (Failure "Request failed with status code 404" (-2000)).
Proof. vm_compute. reflexivity. Qed.

(** ** The end-to-end scenarios of the specification *)

Example scenario_result_url :
  fst (Cached.performTryOn Sample.healthy Sample.person Sample.garment
         (None, Sample.world (Some "hf_abc")))
  = Ok (Success Sample.jpeg_out 4000).
Proof. vm_compute. reflexivity. Qed.

Example scenario_unrecognized_output :
  fst (Cached.performTryOn (Sample.answering (VArr [VNum 42; VObj []]))
         Sample.person Sample.garment (None, Sample.world (Some "hf_abc")))
  = Ok (Failure "Unexpected output format from Gradio client" 4000).
Proof. vm_compute. reflexivity. Qed.

Example scenario_inline_blob :
  fst (TempFile.performTryOn (Sample.answering (VArr [VBlob (mkBlob Sample.jpeg_out "image/png")]))
         Sample.person Sample.garment (tt, Sample.world None))
  = Ok (Success Sample.jpeg_out 6000).
Proof. vm_compute. reflexivity. Qed.

(** A [null] among the outputs does not reach the normalizer: the logging
    statement before it throws on [Object.keys(null)], and the failure
    carries that error's message. *)
Example scenario_null_output :
  fst (Cached.performTryOn (Sample.answering (VArr [VNull; VNull]))
         Sample.person Sample.garment (None, Sample.world (Some "hf_abc")))
  = Ok (Failure "Cannot convert undefined or null to object" 4000).
Proof. vm_compute. reflexivity. Qed.

(** * Further properties of the service *)

(** ** Running forwards *)

Lemma run_bind_Ok {V A B} (m : M V A) (f : A -> M V B) s a s1 :
  m s = (Ok a, s1) -> (m ≫= f) s = f a s1.
Proof. intros H. rewrite run_bind, H. reflexivity. Qed.

Lemma run_bind_Throw {V A B} (m : M V A) (f : A -> M V B) s e s1 :
  m s = (Throw e, s1) -> (m ≫= f) s = (Throw e, s1).
Proof. intros H. rewrite run_bind, H. reflexivity. Qed.

Lemma call_inr {V A} (ev : Event) (answer : list Event -> Thrown + A) (s : V * World) a :
  answer (trace (snd s)) = inr a ->
  call ev answer s = (Ok a, (fst s, record_event ev (snd s))).
Proof. intros H. unfold call. rewrite H. reflexivity. Qed.

Lemma call_inl {V A} (ev : Event) (answer : list Event -> Thrown + A) (s : V * World) e :
  answer (trace (snd s)) = inl e ->
  call ev answer s = (Throw e, (fst s, record_event ev (snd s))).
Proof. intros H. unfold call. rewrite H. reflexivity. Qed.

(** ** The error of a failure *)

Lemma message_or_default_not_empty (e : JSError) : message_or_default e <> EmptyString.
Proof.
  unfold message_or_default. destruct (String.eqb (message e) EmptyString) eqn:E.
  - discriminate.
  - apply String.eqb_neq, E.
Qed.



(** ** Acquiring twice *)

(** X2. [getClient] is idempotent on success: once it has returned a
    handle, calling it again returns the same handle, makes no external
    call and changes nothing. *)
Theorem getClient_twice (R : Remote) (s s1 : option Client * World) (c : Client) :
  Cached.getClient R s = (Ok c, s1) ->
  Cached.getClient R s1 = (Ok c, s1).
Proof.
  intros H. apply getClient_Ok_cached in H. destruct s1 as [v w]. cbn [fst] in H. subst v.
  apply getClient_cached.
Qed.

Lemma getClient_twice_witness :
  let s1 := snd (Cached.getClient Sample.busy (None, Sample.world (Some "hf_abc"))) in
  Cached.getClient Sample.busy s1 = (Ok (mkClient 2), s1).
Proof.
  cbv zeta.
  apply (getClient_twice Sample.busy (None, Sample.world (Some "hf_abc"))).
  vm_compute. reflexivity.
Defined.

(** ** A [null] among the outputs *)

Lemma run_Date_now {V B} (R : Remote) (f : Z -> M V B) (s : V * World) :
  (Date_now R ≫= f) s = f (now R (trace (snd s))) s.
Proof. reflexivity. Qed.

Lemma fetchImageBlob_Ok (R : Remote) url (s : option Client * World) data :
  http_get R (VStr url) (trace (snd s)) = inr data ->
  Cached.fetchImageBlob R url s =
    (Ok (mkBlob data "image/jpeg"), (fst s, record_event (EGet (VStr url)) (snd s))).
Proof.
  intros H. unfold Cached.fetchImageBlob, axios_get.
  rewrite run_bind, (call_inr (EGet (VStr url)) (http_get R (VStr url)) s data H).
  reflexivity.
Qed.

(** What is left of the [try] body of the first variant once the remote
    call has answered. *)
Definition afterPredict (R : Remote) {V} (data : JSValue) (processingTime : Z)
  : M V TryOnResult :=
  describeData data;;
  outputImage ← firstOutput data;
  outputBuffer ← normalizeOutput R outputImage;
  mret (Success outputBuffer processingTime).

Lemma Cached_tryOn_to_predict (R : Remote) p g t0 s c sa pb gb data :
  Cached.getClient R s = (Ok c, sa) ->
  http_get R (VStr p) (trace (snd sa)) = inr pb ->
  http_get R (VStr g) (EGet (VStr p) :: trace (snd sa)) = inr gb ->
  let payload := Cached.tryon_arguments (FromBlob (mkBlob pb "image/jpeg"))
                                        (FromBlob (mkBlob gb "image/jpeg")) in
  let h := EGet (VStr g) :: EGet (VStr p) :: trace (snd sa) in
  predict R c "/tryon" payload h = inr data ->
  let w := mkWorld (HUGGINGFACE_API_KEY (snd sa)) (files (snd sa))
                   (EPredict c "/tryon" payload :: h) in
  Cached.tryOn R p g t0 s = afterPredict R data (now R (trace w) - t0) (fst sa, w).
Proof.
  intros G P Gm payload h Pr w. subst payload h w. unfold Cached.tryOn.
  rewrite (run_bind_Ok _ _ _ _ _ G).
  rewrite (run_bind_Ok _ _ _ _ _ (fetchImageBlob_Ok R p sa pb P)).
  rewrite (run_bind_Ok _ _ _ _ _
             (fetchImageBlob_Ok R g (fst sa, record_event (EGet (VStr p)) (snd sa)) gb Gm)).
  cbv zeta. unfold client_predict, handle_file. cbn [fst snd].
  rewrite run_bind, (call_inr _ (predict R c "/tryon" _)
                       (fst sa, record_event (EGet (VStr g)) (record_event (EGet (VStr p)) (snd sa)))
                       data Pr).
  rewrite run_Date_now. reflexivity.
Qed.

Lemma afterPredict_null (R : Remote) {V} items t (s : V * World) :
  existsb is_null items = true ->
  afterPredict R (VArr items) t s =
    (Throw (TypeError "Cannot convert undefined or null to object"), s).
Proof.
  intros N. unfold afterPredict. rewrite run_bind. unfold describeData. rewrite N. reflexivity.
Qed.

(** X3. When the remote call answers with an array that holds a [null]
    at any position (the result image or the mask preview), the first
    variant returns a failure whose error is the message of the
    [TypeError] thrown by the logging statement of line 117, not
    'Unexpected output format from Gradio client'; the result is not
    looked at, nothing is fetched after the remote call, and the cached
    handle is cleared. *)
Theorem null_output_fails_in_the_log
  (R : Remote) (p g : string) (s sa : option Client * World) (c : Client)
  (pb gb : list Byte.byte) (items : list JSValue) :
  Cached.getClient R s = (Ok c, sa) ->
  http_get R (VStr p) (trace (snd sa)) = inr pb ->
  http_get R (VStr g) (EGet (VStr p) :: trace (snd sa)) = inr gb ->
  let payload := Cached.tryon_arguments (FromBlob (mkBlob pb "image/jpeg"))
                                        (FromBlob (mkBlob gb "image/jpeg")) in
  let h := EGet (VStr g) :: EGet (VStr p) :: trace (snd sa) in
  predict R c "/tryon" payload h = inr (VArr items) ->
  existsb is_null items = true ->
  let w := mkWorld (HUGGINGFACE_API_KEY (snd sa)) (files (snd sa))
                   (EPredict c "/tryon" payload :: h) in
  Cached.performTryOn R p g s =
    (Ok (Failure "Cannot convert undefined or null to object"
                 (now R (trace w) - now R (trace (snd s)))),
     (None, w)).
Proof.
  intros G P Gm payload h Pr N w.
  unfold Cached.performTryOn. rewrite run_Date_now. unfold try_catch.
  rewrite (Cached_tryOn_to_predict R p g _ s c sa pb gb _ G P Gm Pr).
  rewrite (afterPredict_null R items _ _ N). reflexivity.
Qed.

Lemma null_output_fails_in_the_log_witness :
  fst (Cached.performTryOn
         (Sample.answering (VArr [VObj [("url", VStr "https://x/out.jpg")]; VNull]))
         Sample.person Sample.garment (Some (mkClient 1), Sample.world (Some "hf_abc")))
  = Ok (Failure "Cannot convert undefined or null to object" 3000).
Proof.
  rewrite (null_output_fails_in_the_log
             (Sample.answering (VArr [VObj [("url", VStr "https://x/out.jpg")]; VNull]))
             Sample.person Sample.garment
             (Some (mkClient 1), Sample.world (Some "hf_abc"))
             (Some (mkClient 1), Sample.world (Some "hf_abc"))
             (mkClient 1) Sample.jpeg_p Sample.jpeg_g
             [VObj [("url", VStr "https://x/out.jpg")]; VNull]
             eq_refl eq_refl eq_refl eq_refl eq_refl).
  reflexivity.
Defined.

(** ** No retry *)

Definition is_predict (e : Event) : bool :=
  match e with EPredict _ _ _ => true | _ => false end.

Definition not_predict (e : Event) : bool := negb (is_predict e).

(** [one_call m]: among the external calls [m] adds, at most one is a
    remote procedure call. *)
Definition one_call {V A} (m : M V A) : Prop :=
  forall s, exists evs,
    trace (snd (snd (m s))) = evs ++ trace (snd s) /\
    (length (List.filter is_predict evs) <= 1)%nat.

Lemma filter_not_predict (evs : list Event) :
  forallb not_predict evs = true -> List.filter is_predict evs = [].
Proof.
  induction evs as [|e evs IH]; [reflexivity|]. cbn. intros H.
  apply andb_prop in H as [He H]. unfold not_predict in He.
  destruct (is_predict e); [discriminate He | auto].
Qed.

Lemma one_call_of_none {V A} (m : M V A) : emits not_predict m -> one_call m.
Proof.
  intros H s. destruct (H s) as (evs & E & F). exists evs. split; [exact E|].
  rewrite (filter_not_predict evs F). cbn. lia.
Qed.

Lemma one_call_bind {V A B} (m : M V A) (f : A -> M V B) :
  emits not_predict m -> (forall a, one_call (f a)) -> one_call (m ≫= f).
Proof.
  intros Hm Hf s. rewrite run_bind. destruct (Hm s) as (evs & E & F).
  destruct (m s) as [[a|e] s1]; cbn [snd] in E.
  - destruct (Hf a s1) as (evs' & E' & L). exists (evs' ++ evs).
    rewrite E', E, app_assoc. split; [reflexivity|].
    rewrite List.filter_app, (filter_not_predict evs F), app_nil_r. exact L.
  - exists evs. split; [exact E|]. rewrite (filter_not_predict evs F). cbn. lia.
Qed.

Lemma one_call_predict {V B} (R : Remote) c endpoint payload (f : JSValue -> M V B) :
  (forall a, emits not_predict (f a)) ->
  one_call (client_predict R c endpoint payload ≫= f).
Proof.
  intros Hf s. rewrite run_bind. unfold client_predict.
  pose proof (call_state (EPredict c endpoint payload) (predict R c endpoint payload) s) as K.
  destruct (call _ _ s) as [[a|e] s1]; cbn [snd] in K; subst s1.
  - destruct (Hf a (fst s, record_event (EPredict c endpoint payload) (snd s)))
      as (evs & E & F).
    exists (evs ++ [EPredict c endpoint payload]). rewrite E, <- app_assoc.
    split; [reflexivity|].
    rewrite List.filter_app, (filter_not_predict evs F). cbn. lia.
  - exists [EPredict c endpoint payload]. split; [reflexivity | cbn; lia].
Qed.

Ltac not_predict_side :=
  apply adds_io; intros [] ?; first [reflexivity | discriminate].

(** X4. An invocation of [performTryOn] calls the remote procedure at
    most once, in both variants: there is no retry, whatever fails. *)
Theorem performTryOn_calls_predict_at_most_once (R : Remote) (p g : string) :
  one_call (Cached.performTryOn R p g) /\
  (forall V : Type, one_call (TempFile.performTryOn R p g : M V TryOnResult)).
Proof.
  split.
  - unfold Cached.performTryOn.
    apply one_call_bind; [steps_tac | intros t0].
    intros s. unfold try_catch.
    assert (H : one_call (Cached.tryOn R p g t0)).
    { unfold Cached.tryOn, Cached.fetchImageBlob.
      apply one_call_bind; [| intros client].
      { intros s'. destruct (emits_getClient R s') as (evs & E & F). exists evs.
        split; [exact E|]. clear E. induction evs as [|e evs IH]; [reflexivity|].
        cbn in F |- *. apply andb_prop in F as [Fe F]. rewrite (IH F).
        destruct e; try discriminate Fe; reflexivity. }
      apply one_call_bind; [steps_prog; not_predict_side | intros personBlob].
      apply one_call_bind; [steps_prog; not_predict_side | intros garmentBlob].
      cbv zeta. apply one_call_predict. intros data.
      repeat first
        [ apply steps_normalizeOutput; [tc_solve | not_predict_side]
        | apply steps_describeData; tc_solve
        | apply steps_firstOutput; tc_solve
        | progress steps_tac ]. }
    destruct (H s) as (evs & E & L). destruct (Cached.tryOn R p g t0 s) as [[r|e] s1].
    + exists evs. auto.
    + exists evs. rewrite Cached_onError_run.
      destruct e as [ | | e]; (split; [exact E | exact L]).
  - intros V. unfold TempFile.performTryOn.
    apply one_call_bind; [steps_tac | intros t0].
    intros s. unfold with_locals, try_finally, try_catch.
    assert (H : one_call (TempFile.tryOn R p g t0)).
    { unfold TempFile.tryOn, TempFile.downloadToTempFile, Client_connect.
      apply one_call_bind; [steps_tac | intros key].
      apply one_call_bind; [steps_tac | intros client].
      apply one_call_bind;
        [repeat first [ apply steps_axios_get; not_predict_side
                      | apply steps_fs_writeFileSync;
                          [tc_solve | not_predict_side | intros ?; steps_tac]
                      | progress cbv zeta | progress steps_tac ] | intros pp].
      apply one_call_bind; [steps_tac | intros l].
      apply one_call_bind; [steps_tac | intros u].
      apply one_call_bind;
        [repeat first [ apply steps_axios_get; not_predict_side
                      | apply steps_fs_writeFileSync;
                          [tc_solve | not_predict_side | intros ?; steps_tac]
                      | progress cbv zeta | progress steps_tac ] | intros gp].
      apply one_call_bind; [steps_tac | intros l'].
      apply one_call_bind; [steps_tac | intros u'].
      cbv zeta. apply one_call_predict. intros data.
      repeat first
        [ apply steps_normalizeOutput; [tc_solve | not_predict_side]
        | apply steps_describeData; tc_solve
        | apply steps_firstOutput; tc_solve
        | progress steps_tac ]. }
    destruct (H (TempFile.mkLocals None None, snd s)) as (evs & E & L).
    assert (C : emits not_predict (TempFile.cleanup R)).
    { apply emits_cleanup. intros; reflexivity. }
    destruct (TempFile.tryOn R p g t0 (TempFile.mkLocals None None, snd s)) as [[r|e] s1];
      cbn [snd] in E.
    + destruct (C s1) as (cl & Ec & Fc).
      exists (cl ++ evs). destruct (TempFile.cleanup R s1) as [[[]|e'] [l2 w2]];
        cbn [snd] in Ec |- *; rewrite Ec, E, app_assoc; (split; [reflexivity|]);
        rewrite List.filter_app, (filter_not_predict cl Fc); exact L.
    + rewrite TempFile_onError_run.
      destruct (C s1) as (cl & Ec & Fc).
      exists (cl ++ evs).
      destruct e as [ | | e]; destruct (TempFile.cleanup R s1) as [[[]|e'] [l2 w2]];
        cbn [snd] in Ec |- *; rewrite Ec, E, app_assoc; (split; [reflexivity|]);
        rewrite List.filter_app, (filter_not_predict cl Fc); exact L.
Qed.

(** ** How many sessions an invocation sets up *)

Lemma filter_all_session_setup (evs : list Event) :
  forallb is_session_setup evs = true -> List.filter is_session_setup evs = evs.
Proof.
  induction evs as [|e evs IH]; [reflexivity|]. cbn. intros H.
  apply andb_prop in H as [He H]. rewrite He, (IH H). reflexivity.
Qed.

Lemma filter_no_session_setup (evs : list Event) :
  forallb not_session_setup evs = true -> List.filter is_session_setup evs = [].
Proof.
  induction evs as [|e evs IH]; [reflexivity|]. cbn. intros H.
  apply andb_prop in H as [He H]. unfold not_session_setup in He.
  destruct (is_session_setup e); [discriminate He | auto].
Qed.

(** The calls [getClient] makes, in the order it makes them. *)
Lemma getClient_calls (R : Remote) (s : option Client * World) :
  let key := HUGGINGFACE_API_KEY (snd s) in
  let direct := EConnect SPACE_ID key in
  let provision := EDuplicate SPACE_ID (mkDuplicate key 300 true) in
  exists evs,
    trace (snd (snd (Cached.getClient R s))) = evs ++ trace (snd s) /\
    (evs = [] \/ evs = [direct] \/ evs = [provision; direct]).
Proof.
  cbv zeta. destruct s as [[c0|] w]; cbn [snd].
  - rewrite getClient_cached. exists []. auto.
  - destruct (hasToken (HUGGINGFACE_API_KEY w)) eqn:T.
    + destruct (connect R SPACE_ID (HUGGINGFACE_API_KEY w) (trace w)) as [[ | |e]|c1] eqn:C.
      * rewrite (getClient_nullish_connect R w _ T C) by auto. eexists [_]. auto.
      * rewrite (getClient_nullish_connect R w _ T C) by auto. eexists [_]. auto.
      * rewrite (getClient_after_failed_connect R w e T C). cbv zeta.
        destruct (duplicate R _ _ _); eexists [_; _]; auto.
      * rewrite (getClient_direct R w c1 T C). eexists [_]. auto.
    + rewrite (getClient_no_token R w T). exists []. auto.
Qed.

(** Whatever [getClient] did, the rest of the invocation sets up no session. *)
Lemma performTryOn_after_getClient (R : Remote) p g (s : option Client * World) :
  adds not_session_setup (snd (Cached.getClient R s)) (snd (Cached.performTryOn R p g s)).
Proof.
  unfold Cached.performTryOn. rewrite run_Date_now.
  eapply adds_trans;
    [| apply (steps_from_try_catch (adds not_session_setup)); intros e ].
  - unfold Cached.tryOn.
    apply (steps_from_bind (adds not_session_setup)); intros client.
    unfold Cached.fetchImageBlob, client_predict. steps_prog.
  - unfold Cached.onError. steps_prog.
Qed.

(** X5. Whatever happens, one invocation of the first variant sets up at
    most two sessions, and only in this order: nothing (a cached handle, or
    no credential), or one direct connection, or one direct connection
    followed by one duplication; it never connects or duplicates twice. *)
Theorem performTryOn_sets_up_at_most_two_sessions
  (R : Remote) (p g : string) (s : option Client * World) :
  let key := HUGGINGFACE_API_KEY (snd s) in
  let direct := EConnect SPACE_ID key in
  let provision := EDuplicate SPACE_ID (mkDuplicate key 300 true) in
  exists evs,
    trace (snd (snd (Cached.performTryOn R p g s))) = evs ++ trace (snd s) /\
    (List.filter is_session_setup evs = [] \/
     List.filter is_session_setup evs = [direct] \/
     List.filter is_session_setup evs = [provision; direct]).
Proof.
  cbv zeta.
  destruct (getClient_calls R s) as (setup & Es & Cases).
  destruct (performTryOn_after_getClient R p g s) as (rest & Er & Fr).
  exists (rest ++ setup). rewrite Er, Es, app_assoc. split; [reflexivity|].
  rewrite List.filter_app, (filter_no_session_setup rest Fr). cbn [app].
  destruct Cases as [-> | [-> | ->]]; cbn; auto.
Qed.

(** ** The probe and the orchestrator *)

(** X6. The status probe looks neither at the credential nor at the
    cache: with no credential and a Space that accepts the anonymous
    connection, [checkModelStatus] reports [available: true] whatever
    [cachedClient] holds, in both variants, while [performTryOn] of the
    first variant, when no handle is cached, refuses to run, without any
    call. *)
Theorem probe_available_without_credential
  (R : Remote) (p g : string) (w : World) (c : Client) :
  hasToken (HUGGINGFACE_API_KEY w) = false ->
  connect R SPACE_ID (HUGGINGFACE_API_KEY w) (trace w) = inr c ->
  (forall cachedClient : option Client,
     fst (Cached.checkModelStatus R (cachedClient, w)) = Ok (Available "Connected")) /\
  (forall (V : Type) (v : V),
     fst (TempFile.checkModelStatus R (v, w)) = Ok (Available "Connected")) /\
  exists t,
    Cached.performTryOn R p g (None, w) =
      (Ok (Failure "HUGGINGFACE_API_KEY is required for IDM-VTON" t), (None, w)).
Proof.
  intros T C. split; [| split].
  - intros v. unfold Cached.checkModelStatus, try_catch, Client_connect.
    rewrite run_bind, getenv_run. cbv beta iota. rewrite run_bind.
    rewrite (call_inr _ (connect R SPACE_ID (HUGGINGFACE_API_KEY w)) (v, w) c C).
    reflexivity.
  - intros V v. unfold TempFile.checkModelStatus, try_catch, Client_connect.
    rewrite run_bind, getenv_run. cbv beta iota. rewrite run_bind.
    rewrite (call_inr _ (connect R SPACE_ID (HUGGINGFACE_API_KEY w)) (v, w) c C).
    reflexivity.
  - unfold Cached.performTryOn. rewrite run_Date_now.
    unfold try_catch, Cached.tryOn. rewrite run_bind.
    rewrite (getClient_no_token R w T). eexists. reflexivity.
Qed.

Lemma probe_available_without_credential_witness :
  fst (Cached.checkModelStatus Sample.healthy (Some (mkClient 7), Sample.world None))
    = Ok (Available "Connected") /\
  exists t,
    Cached.performTryOn Sample.healthy Sample.person Sample.garment (None, Sample.world None) =
      (Ok (Failure "HUGGINGFACE_API_KEY is required for IDM-VTON" t), (None, Sample.world None)).
Proof.
  destruct (probe_available_without_credential Sample.healthy Sample.person Sample.garment
              (Sample.world None) (mkClient 1) eq_refl eq_refl) as (probe & _ & refused).
  split; [exact (probe (Some (mkClient 7))) | exact refused].
Defined.

(** X7. The connection the probe opens is not kept: after a successful
    [checkModelStatus] with an empty cache, the cache is still empty and
    the next [getClient] opens a second direct connection. *)
Theorem probe_does_not_fill_the_cache (R : Remote) (w : World) :
  hasToken (HUGGINGFACE_API_KEY w) = true ->
  let key := HUGGINGFACE_API_KEY w in
  let s1 := snd (Cached.checkModelStatus R (None, w)) in
  fst s1 = None /\
  exists evs,
    trace (snd (snd (Cached.getClient R s1))) =
      evs ++ EConnect SPACE_ID key :: EConnect SPACE_ID key :: trace w.
Proof.
  intros T. cbv zeta.
  assert (E : snd (Cached.checkModelStatus R (None, w)) =
              (None, record_event (EConnect SPACE_ID (HUGGINGFACE_API_KEY w)) w)).
  { unfold Cached.checkModelStatus, try_catch, Client_connect, call. run_monad.
    destruct (connect R SPACE_ID (HUGGINGFACE_API_KEY w) (trace w)) as [[ | |e]|c];
      reflexivity. }
  rewrite E. split; [reflexivity|].
  apply (getClient_connects_first R
           (record_event (EConnect SPACE_ID (HUGGINGFACE_API_KEY w)) w) T).
Qed.

Lemma probe_does_not_fill_the_cache_witness :
  exists evs,
    trace (snd (snd (Cached.getClient Sample.healthy
                       (snd (Cached.checkModelStatus Sample.healthy
                               (None, Sample.world (Some "hf_abc"))))))) =
      evs ++ [EConnect SPACE_ID (Some "hf_abc"); EConnect SPACE_ID (Some "hf_abc")].
Proof.
  exact (proj2 (probe_does_not_fill_the_cache Sample.healthy
                  (Sample.world (Some "hf_abc")) eq_refl)).
Defined.

(** ** A failure stops the pipeline where it happens *)

(** X8. In the first variant, when the person image cannot be fetched,
    the garment image is not fetched and the remote procedure is not
    called: the fetch is the last call of the invocation.  The failure
    carries the message of the fetch error, and the handle just acquired
    is dropped from the cache although it was not at fault. *)
Theorem person_fetch_failure_stops_the_invocation
  (R : Remote) (p g : string) (s sa : option Client * World) (c : Client) (e : JSError) :
  Cached.getClient R s = (Ok c, sa) ->
  http_get R (VStr p) (trace (snd sa)) = inl (ThrownError e) ->
  let w := record_event (EGet (VStr p)) (snd sa) in
  fst sa = Some c /\
  Cached.performTryOn R p g s =
    (Ok (Failure (message_or_default e) (now R (trace w) - now R (trace (snd s)))),
     (None, w)).
Proof.
  intros G P w. split; [exact (getClient_Ok_cached R s c sa G)|].
  unfold Cached.performTryOn. rewrite run_Date_now. unfold try_catch, Cached.tryOn.
  rewrite (run_bind_Ok _ _ _ _ _ G).
  assert (F : Cached.fetchImageBlob R p sa = (Throw (ThrownError e), (fst sa, w))).
  { unfold Cached.fetchImageBlob, axios_get.
    rewrite run_bind, (call_inl (EGet (VStr p)) (http_get R (VStr p)) sa _ P). reflexivity. }
  rewrite (run_bind_Throw _ _ _ _ _ F). reflexivity.
Qed.

Lemma person_fetch_failure_stops_the_invocation_witness :
  Cached.performTryOn Sample.healthy "https://x/missing.jpg" Sample.garment
    (None, Sample.world (Some "hf_abc")) =
  (Ok (Failure "Request failed with status code 404" 2000),
   (None, mkWorld (Some "hf_abc") ∅
            [EGet (VStr "https://x/missing.jpg"); EConnect SPACE_ID (Some "hf_abc")])).
Proof.
  exact (proj2 (person_fetch_failure_stops_the_invocation Sample.healthy
                  "https://x/missing.jpg" Sample.garment
                  (None, Sample.world (Some "hf_abc"))
                  (Some (mkClient 1),
                   record_event (EConnect SPACE_ID (Some "hf_abc")) (Sample.world (Some "hf_abc")))
                  (mkClient 1) (mkError "Request failed with status code 404")
                  eq_refl eq_refl)).
Defined.

(** X9. In the second variant, when the connection fails nothing else is
    attempted: no image is fetched, no file is written or deleted, and
    the result is the failure carrying the message of the connection
    error. *)
Theorem connect_failure_stops_the_invocation
  (R : Remote) (p g : string) (V : Type) (v : V) (w : World) (e : JSError) :
  connect R SPACE_ID (HUGGINGFACE_API_KEY w) (trace w) = inl (ThrownError e) ->
  let w' := record_event (EConnect SPACE_ID (HUGGINGFACE_API_KEY w)) w in
  TempFile.performTryOn R p g (v, w) =
    (Ok (Failure (message_or_default e) (now R (trace w') - now R (trace w))), (v, w')).
Proof.
  intros C w'. unfold TempFile.performTryOn. rewrite run_Date_now.
  unfold with_locals, try_finally, try_catch. cbn [fst snd].
  assert (T : TempFile.tryOn R p g (now R (trace w)) (TempFile.mkLocals None None, w) =
              (Throw (ThrownError e), (TempFile.mkLocals None None, w'))).
  { unfold TempFile.tryOn, Client_connect. rewrite run_bind, getenv_run. cbv beta iota.
    rewrite run_bind.
    rewrite (call_inl _ (connect R SPACE_ID (HUGGINGFACE_API_KEY w))
               (TempFile.mkLocals None None, w) _ C).
    reflexivity. }
  rewrite T. reflexivity.
Qed.

Lemma connect_failure_stops_the_invocation_witness :
  TempFile.performTryOn Sample.busy Sample.person Sample.garment (tt, Sample.world None) =
  (Ok (Failure "Space is busy" 1000),
   (tt, mkWorld None ∅ [EConnect SPACE_ID None])).
Proof.
  exact (connect_failure_stops_the_invocation Sample.busy Sample.person Sample.garment
           unit tt (Sample.world None) (mkError "Space is busy") eq_refl).
Defined.

(** ** The handle of a successful invocation *)

(** X10. After a successful invocation of the first variant, the handle
    left in the cache is the one the remote procedure was called with;
    and when a handle was cached at the start, it is that handle. *)
Theorem success_keeps_the_handle_it_used
  (R : Remote) (p g : string) (s s1 : option Client * World) (b : list Byte.byte) (t : Z) :
  Cached.performTryOn R p g s = (Ok (Success b t), s1) ->
  exists c payload,
    fst s1 = Some c /\
    In (EPredict c "/tryon" payload) (trace (snd s1)) /\
    match fst s with
    | Some c0 => c = c0
    | None => True
    end.
Proof.
  intros H.
  apply Cached_performTryOn_Ok_inv in H as [(_ & E) | (e & s2 & _ & F & _)];
    [| discriminate F].
  apply Cached_tryOn_inv in E
    as (c & sa & pb & gb & items & G & P & Gm & Pr & N & buf & Nm & Eq).
  pose proof (getClient_Ok_cached R s c sa G) as Csa.
  match type of Nm with normalizeOutput R ?v ?sc = _ =>
    pose proof (steps_normalizeOutput R same_vars ltac:(apply same_vars_io) v sc) as Kv;
    destruct (steps_normalizeOutput R (adds any_event)
                ltac:(apply adds_io; auto) v sc) as (after & Ea & _) end.
  rewrite Nm in Kv, Ea. unfold same_vars in Kv. cbn [fst snd trace record_event] in *.
  eexists c, _. split; [congruence|]. split.
  - rewrite Ea. apply in_or_app. right. left. reflexivity.
  - destruct s as [[c0|] w]; cbn [fst]; [|exact I].
    rewrite getClient_cached in G. inversion G. reflexivity.
Qed.

Lemma success_keeps_the_handle_it_used_witness :
  exists c payload,
    fst (snd (Cached.performTryOn Sample.healthy Sample.person Sample.garment
                (Some (mkClient 7), Sample.world (Some "hf_abc")))) = Some c /\
    In (EPredict c "/tryon" payload)
       (trace (snd (snd (Cached.performTryOn Sample.healthy Sample.person Sample.garment
                           (Some (mkClient 7), Sample.world (Some "hf_abc")))))) /\
    c = mkClient 7.
Proof.
  assert (run : Cached.performTryOn Sample.healthy Sample.person Sample.garment
                  (Some (mkClient 7), Sample.world (Some "hf_abc")) =
                (Ok (Success Sample.jpeg_out 3000),
                 snd (Cached.performTryOn Sample.healthy Sample.person Sample.garment
                        (Some (mkClient 7), Sample.world (Some "hf_abc")))))
    by (vm_compute; reflexivity).
  exact (success_keeps_the_handle_it_used _ _ _ _ _ _ _ run).
Defined.

(** ** Temporary files: names, contents, deletion *)

Lemma string_length_app (a b : string) :
  String.length (a +:+ b) = (String.length a + String.length b)%nat.
Proof. induction a as [|c a IH]; [reflexivity|]. simpl. f_equal. exact IH. Qed.

Lemma string_app_inv_tail (a b x : string) : a +:+ x = b +:+ x -> a = b.
Proof.
  revert b. induction a as [|c a IH]; intros [|d b] H.
  - reflexivity.
  - apply (f_equal String.length) in H. rewrite !string_length_app in H. cbn in H. lia.
  - apply (f_equal String.length) in H. rewrite !string_length_app in H. cbn in H. lia.
  - cbn in H. injection H as -> H. f_equal. exact (IH b H).
Qed.

Lemma temp_name_inj (R : Remote) (prefix : string) (t t' : Z) :
  temp_name R prefix t = temp_name R prefix t' -> t = t'.
Proof.
  unfold temp_name, path_join. intros H.
  apply string_app_inv_head in H. apply (string_app_inv_head "/") in H.
  apply string_app_inv_head in H. apply (string_app_inv_head "_") in H.
  apply string_app_inv_tail in H. exact (pretty_Z_inj _ _ H).
Qed.

(** X11. The name of a temporary file depends on the prefix and on the
    clock reading alone: two successful downloads with the same prefix get
    the same path exactly when the clock read the same millisecond for
    both (the second then overwrites the first); a person file and a
    garment file never share a path. *)
Theorem temp_paths_collide_only_in_the_same_millisecond
  (R : Remote) (V : Type) (prefix u1 u2 : string) (s1 s1' s2 s2' : V * World)
  (path1 path2 : string) :
  TempFile.downloadToTempFile R u1 prefix s1 = (Ok path1, s1') ->
  TempFile.downloadToTempFile R u2 prefix s2 = (Ok path2, s2') ->
  (path1 = path2 <->
   now R (EGet (VStr u1) :: trace (snd s1)) = now R (EGet (VStr u2) :: trace (snd s2))) /\
  (forall (g : string) (sg sg' : V * World) (pathg : string),
     TempFile.downloadToTempFile R g "garment" sg = (Ok pathg, sg') ->
     prefix = "person" -> path1 <> pathg).
Proof.
  intros D1 D2.
  apply downloadToTempFile_Ok_inv in D1 as (d1 & _ & -> & _ & _).
  apply downloadToTempFile_Ok_inv in D2 as (d2 & _ & -> & _ & _).
  split.
  - split; [apply temp_name_inj | intros ->; reflexivity].
  - intros g sg sg' pathg Dg ->.
    apply downloadToTempFile_Ok_inv in Dg as (dg & _ & -> & _ & _).
    apply temp_names_differ.
Qed.

Lemma temp_paths_collide_only_in_the_same_millisecond_witness :
  "/tmp/person_1000.jpg" = "/tmp/person_2000.jpg" <-> 1000 = 2000.
Proof.
  refine (proj1 (temp_paths_collide_only_in_the_same_millisecond Sample.healthy unit
                   "person" Sample.person Sample.person
                   (tt, Sample.world None) _
                   (tt, mkWorld None ∅ [EConnect SPACE_ID None]) _
                   "/tmp/person_1000.jpg" "/tmp/person_2000.jpg" _ _));
    vm_compute; reflexivity.
Defined.

Lemma downloadToTempFile_Ok (R : Remote) {V} url prefix (s : V * World) data :
  http_get R (VStr url) (trace (snd s)) = inr data ->
  let h := EGet (VStr url) :: trace (snd s) in
  let path := temp_name R prefix (now R h) in
  fs_fault R (OpWrite path) h = None ->
  TempFile.downloadToTempFile R url prefix s =
    (Ok path, (fst s, mkWorld (HUGGINGFACE_API_KEY (snd s))
                              (<[path := data]> (files (snd s)))
                              (EFs (OpWrite path) :: h))).
Proof.
  intros G h path W. subst h path. unfold TempFile.downloadToTempFile, axios_get.
  rewrite run_bind, (call_inr (EGet (VStr url)) (http_get R (VStr url)) s data G).
  cbv zeta. rewrite run_Date_now. cbn [fst snd trace record_event].
  unfold fs_writeFileSync, record, call, temp_name in *. run_monad.
  cbn [fst snd trace record_event]. rewrite W. reflexivity.
Qed.

(** X12. What [downloadToTempFile] wrote is what was fetched: reading the
    file at the path it returns gives back the bytes of the response, and
    the file exists. *)
Theorem downloaded_file_reads_back
  (R : Remote) (V : Type) (url prefix : string) (s : V * World) (data : list Byte.byte) :
  http_get R (VStr url) (trace (snd s)) = inr data ->
  let h := EGet (VStr url) :: trace (snd s) in
  let path := temp_name R prefix (now R h) in
  fs_fault R (OpWrite path) h = None ->
  fs_fault R (OpRead path) (EFs (OpWrite path) :: h) = None ->
  fst ((TempFile.downloadToTempFile R url prefix ≫= λ f, fs_readFileSync R (VStr f)) s)
    = Ok data /\
  fst ((TempFile.downloadToTempFile R url prefix ≫= λ f, fs_existsSync f) s) = Ok true.
Proof.
  intros G h path W Rd.
  pose proof (downloadToTempFile_Ok R url prefix s data G W) as D. cbv zeta in D.
  split.
  - rewrite (run_bind_Ok _ _ _ _ _ D), fs_readFileSync_run. cbn [snd trace files].
    fold h path. rewrite Rd, lookup_insert_eq. reflexivity.
  - rewrite (run_bind_Ok _ _ _ _ _ D). unfold fs_existsSync. run_monad. cbn [files].
    rewrite lookup_insert_eq. rewrite bool_decide_eq_true_2 by eauto. reflexivity.
Qed.

Lemma downloaded_file_reads_back_witness :
  fst ((TempFile.downloadToTempFile Sample.healthy Sample.person "person"
          ≫= λ f, fs_readFileSync Sample.healthy (VStr f)) (tt, Sample.world None))
    = Ok Sample.jpeg_p.
Proof.
  exact (proj1 (downloaded_file_reads_back Sample.healthy unit Sample.person "person"
                  (tt, Sample.world None) Sample.jpeg_p eq_refl eq_refl eq_refl)).
Defined.

(** X13. When deleting the person file fails, the [finally] block stops
    there: the error is swallowed, the deletion of the garment file is not
    attempted, and both files stay on disk. *)
Theorem failed_person_unlink_skips_the_garment_file
  (R : Remote) (pp gp : string) (w : World) (d : list Byte.byte) (e : JSError) :
  pp <> EmptyString ->
  files w !! pp = Some d ->
  fs_fault R (OpUnlink pp) (trace w) = Some (ThrownError e) ->
  TempFile.cleanup R (TempFile.mkLocals (Some pp) (Some gp), w) =
    (Ok tt, (TempFile.mkLocals (Some pp) (Some gp), record_event (EFs (OpUnlink pp)) w)).
Proof.
  intros Npp F U. apply String.eqb_neq in Npp.
  unfold TempFile.cleanup, try_catch, TempFile.removeIfPresent, fs_existsSync,
    fs_unlinkSync, fs_call, call.
  run_monad. cbn [TempFile.personTempPath]. rewrite Npp.
  repeat match goal with |- context [snd (?a, ?b)] => change (snd (a, b)) with b end.
  rewrite F, bool_decide_eq_true_2 by eauto. cbn [negb andb].
  repeat match goal with |- context [snd (?a, ?b)] => change (snd (a, b)) with b end.
  rewrite U. reflexivity.
Qed.

Lemma failed_person_unlink_skips_the_garment_file_witness :
  let w := mkWorld None {[ "/tmp/person_1.jpg" := Sample.jpeg_p;
                           "/tmp/garment_2.jpg" := Sample.jpeg_g ]} [] in
  TempFile.cleanup Sample.locked
    (TempFile.mkLocals (Some "/tmp/person_1.jpg") (Some "/tmp/garment_2.jpg"), w) =
  (Ok tt, (TempFile.mkLocals (Some "/tmp/person_1.jpg") (Some "/tmp/garment_2.jpg"),
           record_event (EFs (OpUnlink "/tmp/person_1.jpg")) w)).
Proof.
  cbv zeta.
  apply (failed_person_unlink_skips_the_garment_file Sample.locked
           "/tmp/person_1.jpg" "/tmp/garment_2.jpg" _ Sample.jpeg_p
           (mkError "EPERM: operation not permitted, unlink")).
  - discriminate.
  - vm_compute. reflexivity.
  - reflexivity.
Defined.

(** ** The remote answer and the outcome *)

Lemma normalizeOutput_unrecognized (R : Remote) {V} (v : JSValue) (s : V * World) :
  shape_of v = Unrecognized ->
  normalizeOutput R v s = (Throw unexpected_format, s).
Proof.
  unfold normalizeOutput, shape_of, has_truthy.
  destruct v as [ | | b | n | str | b | items | fields ];
    cbn [truthy get_prop andb typeof_string instanceof_Blob];
    rewrite ?andb_false_r; try reflexivity; try discriminate.
  - destruct (startsWith "http" str); [discriminate | reflexivity].
  - destruct (truthy (lookup_field "url" fields)); [discriminate|].
    destruct (truthy (lookup_field "path" fields)); [discriminate | reflexivity].
Qed.

Lemma afterPredict_array (R : Remote) {V} items t (s : V * World) :
  existsb is_null items = false ->
  afterPredict R (VArr items) t s =
    (normalizeOutput R (hd VUndefined items) ≫= λ buf, mret (Success buf t)) s.
Proof.
  intros N. unfold afterPredict. rewrite run_bind. unfold describeData. rewrite N.
  reflexivity.
Qed.

(** X14. When the remote call answers with an array without [null]
    whose first element has none of the four shapes (the empty array
    included), the first variant returns the failure
    'Unexpected output format from Gradio client': no success, nothing
    fetched or read after the remote call, and the cached handle cleared. *)
Theorem unrecognized_output_is_a_failure
  (R : Remote) (p g : string) (s sa : option Client * World) (c : Client)
  (pb gb : list Byte.byte) (items : list JSValue) :
  Cached.getClient R s = (Ok c, sa) ->
  http_get R (VStr p) (trace (snd sa)) = inr pb ->
  http_get R (VStr g) (EGet (VStr p) :: trace (snd sa)) = inr gb ->
  let payload := Cached.tryon_arguments (FromBlob (mkBlob pb "image/jpeg"))
                                        (FromBlob (mkBlob gb "image/jpeg")) in
  let h := EGet (VStr g) :: EGet (VStr p) :: trace (snd sa) in
  predict R c "/tryon" payload h = inr (VArr items) ->
  existsb is_null items = false ->
  shape_of (hd VUndefined items) = Unrecognized ->
  let w := mkWorld (HUGGINGFACE_API_KEY (snd sa)) (files (snd sa))
                   (EPredict c "/tryon" payload :: h) in
  Cached.performTryOn R p g s =
    (Ok (Failure "Unexpected output format from Gradio client"
                 (now R (trace w) - now R (trace (snd s)))),
     (None, w)).
Proof.
  intros G P Gm payload h Pr N U w.
  unfold Cached.performTryOn. rewrite run_Date_now. unfold try_catch.
  rewrite (Cached_tryOn_to_predict R p g _ s c sa pb gb _ G P Gm Pr).
  rewrite (afterPredict_array R items _ _ N), run_bind.
  rewrite (normalizeOutput_unrecognized R _ _ U). reflexivity.
Qed.

Lemma unrecognized_output_is_a_failure_witness :
  fst (Cached.performTryOn (Sample.answering (VArr []))
         Sample.person Sample.garment (Some (mkClient 1), Sample.world (Some "hf_abc")))
  = Ok (Failure "Unexpected output format from Gradio client" 3000).
Proof.
  rewrite (unrecognized_output_is_a_failure (Sample.answering (VArr []))
             Sample.person Sample.garment
             (Some (mkClient 1), Sample.world (Some "hf_abc"))
             (Some (mkClient 1), Sample.world (Some "hf_abc"))
             (mkClient 1) Sample.jpeg_p Sample.jpeg_g []
             eq_refl eq_refl eq_refl eq_refl eq_refl eq_refl).
  reflexivity.
Defined.

(** X15. A success is never returned on an answer the service does not
    understand: when [performTryOn] succeeds, in either variant, the remote
    procedure was called during this invocation, no remote call follows
    that one, and its answer, on the calls made before it, was an array
    holding no [null] whose first element has one of the four recognized
    shapes. *)
Theorem success_needs_a_recognized_output (R : Remote) (p g : string) :
  (forall (s s1 : option Client * World) (b : list Byte.byte) (t : Z),
     Cached.performTryOn R p g s = (Ok (Success b t), s1) ->
     exists c payload before after items added,
       trace (snd s1) = after ++ EPredict c "/tryon" payload :: before /\
       forallb is_io after = true /\
       before = added ++ trace (snd s) /\
       predict R c "/tryon" payload before = inr (VArr items) /\
       existsb is_null items = false /\
       shape_of (hd VUndefined items) <> Unrecognized) /\
  (forall (V : Type) (s s1 : V * World) (b : list Byte.byte) (t : Z),
     TempFile.performTryOn R p g s = (Ok (Success b t), s1) ->
     exists c payload before after items added,
       trace (snd s1) = after ++ EPredict c "/tryon" payload :: before /\
       forallb is_io after = true /\
       before = added ++ trace (snd s) /\
       predict R c "/tryon" payload before = inr (VArr items) /\
       existsb is_null items = false /\
       shape_of (hd VUndefined items) <> Unrecognized).
Proof.
  split.
  - intros s s1 b t H.
    apply Cached_performTryOn_Ok_inv in H as [(_ & E) | (e & s2 & _ & F & _)];
      [| discriminate F].
    apply Cached_tryOn_inv in E
      as (c & sa & pb & gb & items & G & P & Gm & Pr & N & buf & Nm & Eq).
    destruct (getClient_extends R s) as (setup & Es). rewrite G in Es. cbn [snd] in Es.
    match type of Nm with normalizeOutput R ?v ?sc = _ =>
      destruct (steps_normalizeOutput R (adds is_io)
                  ltac:(apply adds_io; auto) v sc) as (after & Ea & Fa) end.
    rewrite Nm in Ea. cbn [snd trace record_event] in *.
    eexists c, _, _, after, items, (EGet (VStr g) :: EGet (VStr p) :: setup).
    split; [exact Ea|]. split; [exact Fa|].
    split; [rewrite Es; reflexivity|]. split; [exact Pr|]. split; [exact N|].
    intros U. rewrite (normalizeOutput_unrecognized R _ _ U) in Nm. discriminate Nm.
  - intros V s s1 b t H.
    apply TempFile_performTryOn_Ok_inv in H
      as (s2 & [l3 w3] & C & -> & [(_ & E) | (e & _ & F)]); [| discriminate F].
    pose proof (emits_cleanup R is_io ltac:(auto) s2) as (cl & Ec & Fc).
    rewrite C in Ec. cbn [snd] in Ec.
    apply TempFile_tryOn_inv in E
      as (c & pb & gb & items & Cn & P & Gm & Pr & N & buf & Nm & Eq).
    match type of Nm with normalizeOutput R ?v ?sc = _ =>
      destruct (steps_normalizeOutput R (adds is_io)
                  ltac:(apply adds_io; auto) v sc) as (after & Ea & Fa) end.
    rewrite Nm in Ea. cbn [fst snd trace files HUGGINGFACE_API_KEY] in *.
    eexists c, _, _, (cl ++ after), items, [_; _; _; _; _].
    split; [rewrite Ec, Ea, app_assoc; reflexivity|].
    split; [apply forallb_app_true; assumption|].
    split; [reflexivity|]. split; [exact Pr|]. split; [exact N|].
    intros U. rewrite (normalizeOutput_unrecognized R _ _ U) in Nm. discriminate Nm.
Qed.

Lemma success_needs_a_recognized_output_witness :
  exists c payload before after items added,
    trace (snd (snd (Cached.performTryOn Sample.healthy Sample.person Sample.garment
                       (None, Sample.world (Some "hf_abc"))))) =
      after ++ EPredict c "/tryon" payload :: before /\
    forallb is_io after = true /\
    before = added ++ [] /\
    predict Sample.healthy c "/tryon" payload before = inr (VArr items) /\
    existsb is_null items = false /\
    shape_of (hd VUndefined items) <> Unrecognized.
Proof.
  assert (run : Cached.performTryOn Sample.healthy Sample.person Sample.garment
                  (None, Sample.world (Some "hf_abc")) =
                (Ok (Success Sample.jpeg_out 4000),
                 snd (Cached.performTryOn Sample.healthy Sample.person Sample.garment
                        (None, Sample.world (Some "hf_abc")))))
    by (vm_compute; reflexivity).
  exact (proj1 (success_needs_a_recognized_output Sample.healthy Sample.person Sample.garment)
           _ _ _ _ run).
Defined.

(** ** When every rejection is an object *)

Definition is_object (x : Thrown) : bool :=
  match x with
  | ThrownError _ => true
  | ThrownNull | ThrownUndefined => false
  end.

(** No collaborator rejects with [null] or [undefined]. *)
Record rejects_with_objects (R : Remote) : Prop := {
  connect_object : forall space key h x, connect R space key h = inl x -> is_object x = true;
  duplicate_object : forall space opts h x,
    duplicate R space opts h = inl x -> is_object x = true;
  http_get_object : forall url h x, http_get R url h = inl x -> is_object x = true;
  predict_object : forall c endpoint payload h x,
    predict R c endpoint payload h = inl x -> is_object x = true;
  fs_fault_object : forall op h x, fs_fault R op h = Some x -> is_object x = true;
  read_other_object : forall src h x, read_other R src h = inl x -> is_object x = true
}.

(** [throws_objects m]: what [m] throws, if anything, is an object. *)
Definition throws_objects {V A} (m : M V A) : Prop :=
  forall s x s', m s = (Throw x, s') -> is_object x = true.

Section Throws.
Context {V : Type}.

Lemma throws_objects_ret {A} (a : A) : throws_objects (mret a : M V A).
Proof. intros s x s' H. discriminate H. Qed.

Lemma throws_objects_throw {A} (x : Thrown) :
  is_object x = true -> throws_objects (throw x : M V A).
Proof. intros Hx s x' s' H. inversion H. subst. exact Hx. Qed.

Lemma throws_objects_bind {A B} (m : M V A) (f : A -> M V B) :
  throws_objects m -> (forall a, throws_objects (f a)) -> throws_objects (m ≫= f).
Proof.
  intros Hm Hf s x s' H. apply bind_Throw_inv in H as [H | (a & s1 & _ & H)].
  - exact (Hm _ _ _ H).
  - exact (Hf a _ _ _ H).
Qed.

Lemma throws_objects_call {A} ev (answer : list Event -> Thrown + A) :
  (forall h x, answer h = inl x -> is_object x = true) ->
  throws_objects (call ev answer : M V A).
Proof.
  intros Ha s x s' H. unfold call in H.
  destruct (answer (trace (snd s))) as [x'|a] eqn:E; inversion H; subst.
  exact (Ha _ _ E).
Qed.

Lemma throws_objects_total {A} (m : M V A) :
  (forall s, exists a s', m s = (Ok a, s')) -> throws_objects m.
Proof. intros Hm s x s' H. destruct (Hm s) as (a & s1 & E). congruence. Qed.

(** A handler that only reads the message of what it caught and
    returns: the [try] around it throws nothing once its body throws
    objects only. *)
Lemma try_catch_returns {A} (m : M V A) (h : Thrown -> M V A) :
  throws_objects m ->
  (forall e s, exists a s', h (ThrownError e) s = (Ok a, s')) ->
  forall s, exists a s', try_catch m h s = (Ok a, s').
Proof.
  intros Hm Hh s. unfold try_catch. destruct (m s) as [[a|x] s1] eqn:E; [eauto|].
  pose proof (Hm _ _ _ E) as Ox. destruct x as [ | | e]; try discriminate Ox. apply Hh.
Qed.
End Throws.

Ltac throws_tac :=
  repeat first
    [ apply throws_objects_ret
    | apply throws_objects_throw; reflexivity
    | apply throws_objects_total; intros ?; eexists _, _; reflexivity
    | lazymatch goal with
      | |- throws_objects (_ ≫= _) => apply throws_objects_bind; [| intros ?]
      end
    | progress cbv zeta ].

Section Objects_only.
Context (R : Remote) (objects : rejects_with_objects R).

Lemma throws_objects_axios_get {V} url : throws_objects (axios_get R url : M V _).
Proof. apply throws_objects_call. intros h x. apply (http_get_object R objects). Qed.

Lemma throws_objects_fs_call {V} op : throws_objects (fs_call R op : M V unit).
Proof.
  apply throws_objects_call. intros h x H.
  destruct (fs_fault R op h) as [x'|] eqn:E; inversion H; subst.
  exact (fs_fault_object R objects _ _ _ E).
Qed.

Lemma throws_objects_fs_readFileSync {V} path :
  throws_objects (fs_readFileSync R path : M V _).
Proof.
  unfold fs_readFileSync.
  destruct path as [ | | b | n | p | b | items | fields ];
    try (apply throws_objects_call; intros h x; apply (read_other_object R objects)).
  apply throws_objects_bind; [apply throws_objects_fs_call | intros ?].
  apply throws_objects_bind; [throws_tac | intros w].
  destruct (files w !! p); throws_tac.
Qed.

Lemma throws_objects_fs_writeFileSync {V} path data :
  throws_objects (fs_writeFileSync R path data : M V unit).
Proof.
  intros s x s' H. unfold fs_writeFileSync, record, call in H. run_monad.
  destruct (fs_fault R (OpWrite path) (trace (snd s))) as [e|] eqn:E; [| discriminate H].
  destruct (partial_write R path data (trace (snd s))); inversion H; subst;
    exact (fs_fault_object R objects _ _ _ E).
Qed.

Lemma throws_objects_fs_unlinkSync {V} path :
  throws_objects (fs_unlinkSync R path : M V unit).
Proof.
  unfold fs_unlinkSync.
  apply throws_objects_bind; [apply throws_objects_fs_call | intros ?].
  apply throws_objects_bind; [throws_tac | intros w].
  destruct (files w !! path); throws_tac.
Qed.

Lemma throws_objects_describeData {V} data : throws_objects (describeData data : M V unit).
Proof.
  unfold describeData. destruct data; throws_tac.
  destruct (existsb is_null items); throws_tac.
Qed.

Lemma throws_objects_firstOutput {V} data : throws_objects (firstOutput data : M V _).
Proof. unfold firstOutput. destruct data as [ | | | | [|] | | | ]; throws_tac. Qed.

Lemma throws_objects_normalizeOutput {V} v : throws_objects (normalizeOutput R v : M V _).
Proof.
  unfold normalizeOutput.
  repeat match goal with |- context [if ?c then _ else _] => destruct c end;
    try (apply throws_objects_bind; [apply throws_objects_axios_get | intros ?]);
    try apply throws_objects_fs_readFileSync; throws_tac.
  destruct v; throws_tac.
Qed.

Lemma throws_objects_getClient : throws_objects (Cached.getClient R).
Proof.
  unfold Cached.getClient.
  apply throws_objects_bind; [throws_tac | intros [c|]]; [throws_tac|].
  apply throws_objects_bind; [throws_tac | intros key].
  destruct (negb (hasToken key)); [throws_tac|].
  apply throws_objects_bind; [| intros [c|]].
  - apply throws_objects_total.
    apply try_catch_returns; [| intros e s; eexists _, _; reflexivity].
    apply throws_objects_bind; [| intros c; throws_tac].
    apply throws_objects_call. intros h x. apply (connect_object R objects).
  - throws_tac.
  - apply throws_objects_bind; [| intros c; throws_tac].
    apply throws_objects_call. intros h x. apply (duplicate_object R objects).
Qed.

Lemma throws_objects_afterPredict {V} data t :
  throws_objects (afterPredict R data t : M V _).
Proof.
  unfold afterPredict.
  apply throws_objects_bind; [apply throws_objects_describeData | intros ?].
  apply throws_objects_bind; [apply throws_objects_firstOutput | intros out].
  apply throws_objects_bind; [apply throws_objects_normalizeOutput | intros buf].
  throws_tac.
Qed.

Lemma throws_objects_predict {V} c endpoint payload :
  throws_objects (client_predict R c endpoint payload : M V _).
Proof. apply throws_objects_call. intros h x. apply (predict_object R objects). Qed.

Lemma throws_objects_Cached_tryOn p g t0 : throws_objects (Cached.tryOn R p g t0).
Proof.
  unfold Cached.tryOn, Cached.fetchImageBlob.
  apply throws_objects_bind; [apply throws_objects_getClient | intros client].
  apply throws_objects_bind; [| intros personBlob].
  { apply throws_objects_bind; [apply throws_objects_axios_get | intros ?; throws_tac]. }
  apply throws_objects_bind; [| intros garmentBlob].
  { apply throws_objects_bind; [apply throws_objects_axios_get | intros ?; throws_tac]. }
  cbv zeta. apply throws_objects_bind; [apply throws_objects_predict | intros data].
  apply throws_objects_bind; [throws_tac | intros t].
  apply (throws_objects_afterPredict data (t - t0)).
Qed.

Lemma throws_objects_downloadToTempFile {V} url prefix :
  throws_objects (TempFile.downloadToTempFile R url prefix : M V _).
Proof.
  unfold TempFile.downloadToTempFile.
  apply throws_objects_bind; [apply throws_objects_axios_get | intros response].
  cbv zeta. apply throws_objects_bind; [throws_tac | intros t].
  apply throws_objects_bind; [apply throws_objects_fs_writeFileSync | intros ?; throws_tac].
Qed.

Lemma throws_objects_TempFile_tryOn p g t0 : throws_objects (TempFile.tryOn R p g t0).
Proof.
  unfold TempFile.tryOn.
  apply throws_objects_bind; [throws_tac | intros key].
  apply throws_objects_bind; [| intros client].
  { apply throws_objects_call. intros h x. apply (connect_object R objects). }
  apply throws_objects_bind; [apply throws_objects_downloadToTempFile | intros pp].
  apply throws_objects_bind; [throws_tac | intros l].
  apply throws_objects_bind; [throws_tac | intros u].
  apply throws_objects_bind; [apply throws_objects_downloadToTempFile | intros gp].
  apply throws_objects_bind; [throws_tac | intros l'].
  apply throws_objects_bind; [throws_tac | intros u'].
  cbv zeta. apply throws_objects_bind; [apply throws_objects_predict | intros data].
  apply throws_objects_bind; [throws_tac | intros t].
  apply (throws_objects_afterPredict data (t - t0)).
Qed.

Lemma throws_objects_removeIfPresent {V} tempPath :
  throws_objects (TempFile.removeIfPresent R tempPath : M V unit).
Proof.
  unfold TempFile.removeIfPresent. destruct tempPath as [path|]; [|throws_tac].
  apply throws_objects_bind; [unfold fs_existsSync; throws_tac | intros present].
  destruct (_ && _); [apply throws_objects_fs_unlinkSync | throws_tac].
Qed.

(** The [finally] block then swallows whatever its deletions throw. *)
Lemma cleanup_returns s : exists s', TempFile.cleanup R s = (Ok tt, s').
Proof.
  assert (H : exists u s', TempFile.cleanup R s = (Ok u, s')).
  { unfold TempFile.cleanup.
    apply try_catch_returns; [| intros e s0; eexists _, _; reflexivity].
    apply throws_objects_bind; [throws_tac | intros l].
    apply throws_objects_bind; [apply throws_objects_removeIfPresent | intros ?].
    apply throws_objects_removeIfPresent. }
  destruct H as ([] & s' & H). eauto.
Qed.
End Objects_only.


Lemma offline_rejects_with_objects :
  rejects_with_objects (Sample.rejecting (Error "getaddrinfo ENOTFOUND")).
Proof.
  split; cbn; intros; try discriminate;
    match goal with H : inl _ = inl _ |- _ => inversion H; reflexivity end.
Qed.

